(** * Flow-field particle simulation ([main.py]): model and properties

    The program keeps two module-level arrays: [particlePositions], an
    [n x 4] float64 array of rows [(x, y, velX, velY)], and
    [pixelColourArray], a [height x width x 3] uint8 array.  Every function
    of the simulation core reads and mutates these globals, and several of
    them can raise (an index out of bounds, a division by zero).  The model
    is therefore a state-and-exception monad over a record of the two
    arrays; a raised exception keeps the mutations made before it, as in
    Python.

    Coordinates are IEEE binary64 numbers, modelled by Rocq's primitive
    floats.  [noise.snoise2], [math.cos] and [math.sin] are functions of
    external libraries and are parameters of the model. *)

From Stdlib Require Import ZArith Lia Bool Floats Ascii.
From stdpp Require Import base list strings pretty gmap.

Local Open Scope Z_scope.

(** ** Exceptions and results *)

Inductive exn : Type :=
  | IndexError
  | ZeroDivisionError
  | ValueError
  | OverflowError.

Inductive result (A : Type) : Type :=
  | Ok (a : A)
  | Raise (e : exn).
Arguments Ok {A} a.
Arguments Raise {A} e.

(** ** Python and numpy arithmetic on binary64 *)

Module PyFloat.

(** [float(n)] for a Python int: the nearest binary64, ties to even. *)
Definition of_int (n : Z) : float :=
  SF2Prim (binary_normalize prec emax n 0 false).

(** [int(f)]: truncation toward zero; [int(nan)] raises [ValueError] and
    [int(inf)] raises [OverflowError]. *)
Definition to_int (f : float) : result Z :=
  match Prim2SF f with
  | S754_zero _ => Ok 0
  | S754_infinity _ => Raise OverflowError
  | S754_nan => Raise ValueError
  | S754_finite s m e =>
      Ok (cond_Zopp s (if 0 <=? e then Z.pos m * 2 ^ e
                       else Z.pos m / 2 ^ (- e)))
  end.

(** [math.ceil(f)], with the same exceptions as [int]. *)
Definition ceil (f : float) : result Z :=
  match Prim2SF f with
  | S754_zero _ => Ok 0
  | S754_infinity _ => Raise OverflowError
  | S754_nan => Raise ValueError
  | S754_finite s m e =>
      if 0 <=? e then Ok (cond_Zopp s (Z.pos m * 2 ^ e))
      else
        let q := Z.pos m / 2 ^ (- e) in
        let exact := Z.pos m mod 2 ^ (- e) =? 0 in
        Ok (if s then - q else if exact then q else q + 1)
  end.

(** C's [fmod]: the remainder of the truncated quotient, exact, with the
    sign of the dividend. *)
Definition fmod (a b : float) : float :=
  match Prim2SF a, Prim2SF b with
  | S754_nan, _ | _, S754_nan => nan
  | S754_infinity _, _ => nan
  | _, S754_zero _ => nan
  | S754_zero _, _ => a
  | S754_finite _ _ _, S754_infinity _ => a
  | S754_finite sa ma ea, S754_finite _ mb eb =>
      let e := Z.min ea eb in
      let r := Z.rem (Z.pos ma * 2 ^ (ea - e)) (Z.pos mb * 2 ^ (eb - e)) in
      SF2Prim (binary_normalize prec emax (cond_Zopp sa r) e sa)
  end.

(** [a % b] on a numpy float64 ([npy_remainder]): the result takes the
    sign of the divisor; a zero divisor gives nan and no exception. *)
Definition remainder (a b : float) : float :=
  let m := fmod a b in
  if PrimFloat.eqb b 0 then m
  else if PrimFloat.eqb m 0 then (if PrimFloat.ltb b 0 then (-0)%float else 0%float)
  else if negb (Bool.eqb (PrimFloat.ltb b 0) (PrimFloat.ltb m 0)) then (m + b)%float
  else m.

(** The builtins [max(a, b)] and [min(a, b)]: the first argument unless
    the second is strictly better (so a nan second argument is dropped). *)
Definition max (a b : float) : float := if PrimFloat.ltb a b then b else a.
Definition min (a b : float) : float := if PrimFloat.ltb b a then b else a.

(** [math.pi] *)
Definition pi : float := 0x1.921fb54442d18p+1%float.

End PyFloat.

(** ** Numbers the collection code is generic in

    [deleteParticle] and [boundPositionToWindow] only compare coordinates
    with the window size and reduce them modulo it, so (Python being
    dynamically typed) they run on whatever numbers they are given.  The
    simulation calls them on float64 values. *)

Class Number (num : Type) : Type := {
  (** an int literal or int operand, coerced to the coordinate's type *)
  num_of_int : Z -> num;
  (** [a <= b] and [a < b] *)
  num_le : num -> num -> bool;
  num_lt : num -> num -> bool;
  (** [a % b] *)
  num_mod : num -> num -> result num;
}.

(** numpy float64: comparisons with nan are false, [%] never raises. *)
#[export] Instance float_Number : Number float := {
  num_of_int := PyFloat.of_int;
  num_le := PrimFloat.leb;
  num_lt := PrimFloat.ltb;
  num_mod a b := Ok (PyFloat.remainder a b);
}.

(** ** Configuration and state *)

(** A cell of [pixelColourArray]: its three channels. *)
Definition colour : Type := Z * Z * Z.

(** The module-level settings, constant during a run. *)
Record config : Type := Config {
  displayWidth : Z;
  displayHeight : Z;
  points : Z;
  noiseScale : float;
  pixelColourRGB : colour;
  friction : float;
  acceleration : float;
  mirrorEdgesOnContact : bool;
  interpolation : bool;
}.

(** The functions of the [noise] and [math] modules the program calls. *)
Record library : Type := Library {
  snoise2 : float -> float -> float;
  cos : float -> float;
  sin : float -> float;
}.

(** One call of [drawParticle] that reached a cell: the cell's row and
    column and the index the particle was drawn under. *)
Inductive paint : Type :=
  | Paint (y x : Z) (particleID : Z).

(** The mutable globals.  [paints] is a ghost field: the log of the cells
    [drawParticle] was called on, oldest first; no operation reads it. *)
Record state (num : Type) : Type := State {
  particlePositions : list (num * num * num * num);
  pixelColourArray : list (list colour);
  paints : list paint;
}.
Arguments State {num} _ _ _.
Arguments particlePositions {num} _.
Arguments pixelColourArray {num} _.
Arguments paints {num} _.

(** ** The monad: global state and exceptions *)

Definition M (num A : Type) : Type := state num -> result A * state num.

Definition ret {num A} (a : A) : M num A := fun s => (Ok a, s).

Definition raise {num A} (e : exn) : M num A := fun s => (Raise e, s).

Definition bind {num A B} (m : M num A) (k : A -> M num B) : M num B :=
  fun s =>
    match m s with
    | (Ok a, s') => k a s'
    | (Raise e, s') => (Raise e, s')
    end.

(** lift a computation that can fail but touches no global *)
Definition lift {num A} (r : result A) : M num A := fun s => (r, s).

Definition get {num} : M num (state num) := fun s => (Ok s, s).

Definition put {num} (s : state num) : M num unit := fun _ => (Ok tt, s).

Declare Scope py_scope.
Delimit Scope py_scope with py.
Notation "x <- m ;; k" := (bind m (fun x => k))
  (at level 100, m at next level, right associativity) : py_scope.
Notation "m ;; k" := (bind m (fun _ => k))
  (at level 100, right associativity) : py_scope.
Local Open Scope py_scope.

(** ** numpy indexing *)

(** An index [i] into an axis of size [n]: valid from [-n] to [n - 1],
    negative ones counting from the end.  (For an index that does not fit
    a machine word numpy raises [OverflowError] instead; the program's
    indices are cell coordinates and row numbers.) *)
Definition np_index (n i : Z) : result nat :=
  if (i <? - n) || (n <=? i) then Raise IndexError
  else Ok (Z.to_nat (if i <? 0 then i + n else i)).

(** [np.clip(v, 0, 255)] on one channel *)
Definition clip (v : Z) : Z := Z.min (Z.max v 0) 255.

(** a value stored into a uint8 array *)
Definition uint8 (v : Z) : Z := v mod 256.

(** ** The particle collection and the boundary policy *)

Section Collection.
Context {num : Type} `{Number num}.

Definition set_particles (f : list (num * num * num * num) -> list (num * num * num * num))
    (s : state num) : state num :=
  State (f (particlePositions s)) (pixelColourArray s) (paints s).

(** [deleteParticle(index)]: [np.delete] raises on an index outside
    [-n .. n-1]; the progress bar then divides by [points] (its text goes
    to stdout, which is not modelled). *)
Definition deleteParticle (cfg : config) (index : Z) : M num unit :=
  s <- get ;;
  i <- lift (np_index (Z.of_nat (length (particlePositions s))) index) ;;
  put (set_particles (delete i) s) ;;
  if points cfg =? 0 then raise ZeroDivisionError else ret tt.

(** One axis of [boundPositionToWindow]: the coordinate [x] against the
    window size [dimension]. *)
Definition boundAxis (cfg : config) (x : num) (dimension : Z) (particleID : Z)
    : M num num :=
  if negb (num_le (num_of_int 0) x && num_lt x (num_of_int dimension)) then
    if mirrorEdgesOnContact cfg then
      lift (num_mod x (num_of_int dimension))
    else
      deleteParticle cfg particleID ;;
      ret (num_of_int 0)
  else ret x.

(** [boundPositionToWindow(x, y, particleID)] *)
Definition boundPositionToWindow (cfg : config) (x y : num) (particleID : Z)
    : M num (num * num) :=
  x <- boundAxis cfg x (displayWidth cfg) particleID ;;
  y <- boundAxis cfg y (displayHeight cfg) particleID ;;
  ret (x, y).

End Collection.

(** ** The simulation on float64 coordinates *)

Local Open Scope float_scope.

(** a row of [particlePositions] *)
Definition particle : Type := float * float * float * float.

Definition lerp (a b t : float) : float := a + (b - a) * t.

(** [interpolate(x1, y1, x2, y2, steps)]; [i/steps] divides two ints. *)
Definition interpolate (x1 y1 x2 y2 : float) (steps : Z) : list (float * float) :=
  (fun i : Z =>
     let t := PyFloat.of_int i / PyFloat.of_int steps in
     (lerp x1 x2 t, lerp y1 y2 t)) <$> seqZ 0 steps.

(** [math.cos] and [math.sin] raise [ValueError] on an infinite argument. *)
Definition math_trig (f : float -> float) (r : float) : M float float :=
  if PrimFloat.is_infinity r then raise ValueError else ret (f r).

(** The direction angle of the noise field at [(x, y)]: the first three
    statements of [getNewParticlePosition]. *)
Definition sampleAngle (lib : library) (cfg : config) (x y : float) : float :=
  let perlin :=
    snoise2 lib (x / PyFloat.of_int (displayWidth cfg + 1) * noiseScale cfg)
                (y / PyFloat.of_int (displayHeight cfg + 1) * noiseScale cfg) in
  let perlin := (perlin + 1) / 2 in
  PyFloat.pi * 2 * perlin.

(** [getNewParticlePosition(x, y, velX, velY, particleID)] *)
Definition getNewParticlePosition (lib : library) (cfg : config)
    (x y velX velY : float) (particleID : Z) : M float particle :=
  let rad := sampleAngle lib cfg x y in
  c <- math_trig (cos lib) rad ;;
  let accelX := c * acceleration cfg in
  s <- math_trig (sin lib) rad ;;
  let accelY := s * acceleration cfg in
  let velX := (velX + accelX) / (friction cfg + 1) in
  let velY := (velY + accelY) / (friction cfg + 1) in
  let newX := x + velX in
  let newY := y + velY in
  ret (newX, newY, velX, velY).

(** [pixelColourArray[y, x]] *)
Definition getPixel (y x : Z) : M float colour :=
  s <- get ;;
  i <- lift (np_index (Z.of_nat (length (pixelColourArray s))) y) ;;
  match pixelColourArray s !! i with
  | None => raise IndexError
  | Some row =>
      j <- lift (np_index (Z.of_nat (length row)) x) ;;
      match row !! j with
      | None => raise IndexError
      | Some c => ret c
      end
  end.

(** [pixelColourArray[y, x] = c], each channel cast to uint8 *)
Definition setPixel (y x : Z) (c : colour) : M float unit :=
  s <- get ;;
  i <- lift (np_index (Z.of_nat (length (pixelColourArray s))) y) ;;
  match pixelColourArray s !! i with
  | None => raise IndexError
  | Some row =>
      j <- lift (np_index (Z.of_nat (length row)) x) ;;
      let '(r, g, b) := c in
      put (State (particlePositions s)
                 (<[i := <[j := (uint8 r, uint8 g, uint8 b)]> row]> (pixelColourArray s))
                 (paints s))
  end.

(** ghost: log a call of [drawParticle] that reached its cell *)
Definition logPaint (p : paint) : M float unit :=
  fun s => (Ok tt, State (particlePositions s) (pixelColourArray s) (paints s ++ [p])).

(** [np.clip(currentPixel + pixelColourRGB, 0, 255)]: the sum is taken in
    int64, so it does not wrap for the increments the file documents
    (1 to 255), nor for any increment that leaves room for 255 in int64. *)
Definition addColour (cfg : config) (currentPixel : colour) : colour :=
  let '(r, g, b) := currentPixel in
  let '(cr, cg, cb) := pixelColourRGB cfg in
  (clip (r + cr), clip (g + cg), clip (b + cb))%Z.

Definition saturated (c : colour) : bool :=
  let '(r, g, b) := c in ((r =? 255) && (g =? 255) && (b =? 255))%Z.

(** [drawParticle(x, y, currentPos)]: returns 1 when the particle died. *)
Definition drawParticle (cfg : config) (x y : float) (currentPos : Z) : M float Z :=
  x <- lift (PyFloat.to_int x) ;;
  y <- lift (PyFloat.to_int y) ;;
  currentPixel <- getPixel y x ;;
  logPaint (Paint y x currentPos) ;;
  let newColor := addColour cfg currentPixel in
  if saturated newColor then
    deleteParticle cfg currentPos ;;
    ret 1%Z
  else
    setPixel y x newColor ;;
    ret 0%Z.

(** [a / b] on two Python numbers raises on a zero divisor (a float64
    operand makes the division numpy's instead, which returns inf or nan). *)
Definition py_truediv (a b : float) : M float float :=
  if b =? 0 then raise ZeroDivisionError else ret (a / b).

(** The [for pos in lerpPositions] loop of [drawLine]; both [break]s end it. *)
Fixpoint drawLine_loop (cfg : config) (lerpPositions : list (float * float))
    (particleID : Z) : M float unit :=
  match lerpPositions with
  | [] => ret tt
  | pos :: lerpPositions =>
      p <- boundPositionToWindow cfg (fst pos) (snd pos) particleID ;;
      let '(x3, y3) := p in
      if x3 + y3 =? 0 then ret tt
      else
        status <- drawParticle cfg x3 y3 particleID ;;
        if (status =? 1)%Z then ret tt
        else drawLine_loop cfg lerpPositions particleID
  end.

(** [drawLine(x1, y1, x2, y2, particleID)] *)
Definition drawLine (cfg : config) (x1 y1 x2 y2 : float) (particleID : Z)
    : M float unit :=
  let dx := abs (x1 - x2) in
  let dy := abs (y1 - y2) in
  let maxDistance := PyFloat.max dx dy in
  inv <- py_truediv 1 (friction cfg) ;;
  let edgeMargin := inv * acceleration cfg in
  if (1 <=? maxDistance)
     && (maxDistance <? PyFloat.min (PyFloat.of_int (displayWidth cfg) - edgeMargin)
                                    (PyFloat.of_int (displayHeight cfg) - edgeMargin))
  then
    lerpCount <- lift (PyFloat.ceil maxDistance) ;;
    drawLine_loop cfg (interpolate x1 y1 x2 y2 lerpCount) particleID
  else ret tt.

(** [particlePositions[index]] *)
Definition getParticle (index : Z) : M float particle :=
  s <- get ;;
  i <- lift (np_index (Z.of_nat (length (particlePositions s))) index) ;;
  match particlePositions s !! i with
  | None => raise IndexError
  | Some p => ret p
  end.

(** [particlePositions[index] = p] *)
Definition setParticle (index : Z) (p : particle) : M float unit :=
  s <- get ;;
  i <- lift (np_index (Z.of_nat (length (particlePositions s))) index) ;;
  put (set_particles (<[i := p]>) s).

(** The body of the [while currentParticle < particlePositionLength] loop,
    after its length check and up to the increment of [currentParticle]
    (which both of its exits perform). *)
Definition processParticle (lib : library) (cfg : config) (currentParticle : Z)
    : M float unit :=
  p1 <- getParticle currentParticle ;;
  let '(x1, y1, vx1, vy1) := p1 in
  p2 <- getNewParticlePosition lib cfg x1 y1 vx1 vy1 currentParticle ;;
  let '(x2, y2, vx2, vy2) := p2 in
  b <- boundPositionToWindow cfg x2 y2 currentParticle ;;
  let '(x2, y2) := b in
  if x2 + y2 =? 0 then ret tt
  else
    setParticle currentParticle (x2, y2, vx2, vy2) ;;
    if negb (interpolation cfg) then
      drawParticle cfg x2 y2 currentParticle ;;
      ret tt
    else drawLine cfg x1 y1 x2 y2 currentParticle.

(** The inner loop.  [currentParticle] grows by one per iteration up to
    [particlePositionLength], so [fuel] iterations suffice when
    [particlePositionLength - currentParticle <= fuel]. *)
Fixpoint sweep (lib : library) (cfg : config) (fuel : nat)
    (particlePositionLength currentParticle : Z) : M float unit :=
  match fuel with
  | O => ret tt
  | S fuel =>
      if (currentParticle <? particlePositionLength)%Z then
        s <- get ;;
        if (Z.of_nat (length (particlePositions s)) <=? currentParticle)%Z then ret tt
        else
          processParticle lib cfg currentParticle ;;
          sweep lib cfg fuel particlePositionLength (currentParticle + 1)
      else ret tt
  end.

(** One iteration of [while running]: returns the new value of [running].
    Event polling and the rendering of the frame belong to the host. *)
Definition frame (lib : library) (cfg : config) : M float bool :=
  s <- get ;;
  let particlePositionLength := Z.of_nat (length (particlePositions s)) in
  let running := negb (particlePositionLength =? 0)%Z in
  sweep lib cfg (Z.to_nat particlePositionLength) particlePositionLength 0 ;;
  ret running.

(** The main loop, for at most [fuel] frames: [true] when the loop was
    left (its condition [running] became false), [false] when the frames
    ran out with [running] still true. *)
Fixpoint mainLoop (lib : library) (cfg : config) (fuel : nat) : M float bool :=
  match fuel with
  | O => ret false
  | S fuel =>
      running <- frame lib cfg ;;
      if running then mainLoop lib cfg fuel else ret true
  end.

(** ** Start-up *)

(** [randint(a, b)] returns some [n] with [a <= n <= b]. *)
Definition randint (a b n : Z) : Prop := (a <= n <= b)%Z.

(** The values the start-up loop can draw: one [(xo, yo)] per particle. *)
Definition drawn (cfg : config) (draws : list (Z * Z)) : Prop :=
  Z.of_nat (length draws) = Z.max 0 (points cfg) /\
  Forall (fun d => randint 0 (displayWidth cfg) (fst d)
                   /\ randint 0 (displayHeight cfg) (snd d)) draws.

(** The globals after the start-up loop has stacked one row per draw. *)
Definition startup (cfg : config) (draws : list (Z * Z)) : state float :=
  State ((fun d => (PyFloat.of_int (fst d), PyFloat.of_int (snd d),
                    PyFloat.of_int 0, PyFloat.of_int 0)) <$> draws)
        (replicate (Z.to_nat (displayHeight cfg))
                   (replicate (Z.to_nat (displayWidth cfg)) (0, 0, 0)%Z))
        [].

(** ** Notions the properties are stated with *)

Local Close Scope float_scope.

(** the live particle count *)
Definition count {num} (s : state num) : nat := length (particlePositions s).

Definition colour_ok (c : colour) : Prop :=
  let '(r, g, b) := c in
  (0 <= r <= 255 /\ 0 <= g <= 255 /\ 0 <= b <= 255)%Z.

(** every channel of every cell lies in 0..255 *)
Definition channels_ok (s : state float) : Prop :=
  Forall (Forall colour_ok) (pixelColourArray s).

(** The states the program can be in: the start-up state, and any state a
    call of one of its operations leaves behind (whether the call returned
    or raised). *)
Inductive reachable (lib : library) (cfg : config) : state float -> Prop :=
  | reach_startup draws :
      reachable lib cfg (startup cfg draws)
  | reach_drawParticle s x y currentPos :
      reachable lib cfg s ->
      reachable lib cfg (snd (drawParticle cfg x y currentPos s))
  | reach_drawLine s x1 y1 x2 y2 particleID :
      reachable lib cfg s ->
      reachable lib cfg (snd (drawLine cfg x1 y1 x2 y2 particleID s))
  | reach_processParticle s currentParticle :
      reachable lib cfg s ->
      reachable lib cfg (snd (processParticle lib cfg currentParticle s))
  | reach_frame s :
      reachable lib cfg s ->
      reachable lib cfg (snd (frame lib cfg s)).

(** The state at the start of frame [n]: [None] when an earlier frame
    raised. *)
Fixpoint atFrame (lib : library) (cfg : config) (n : nat) (s : state float)
    : option (state float) :=
  match n with
  | O => Some s
  | S n =>
      match frame lib cfg s with
      | (Ok _, s') => atFrame lib cfg n s'
      | (Raise _, _) => None
      end
  end.

(** [0 <= x < displayWidth] and [0 <= y < displayHeight] on float64 *)
Definition inWindow (cfg : config) (x y : float) : bool :=
  (PrimFloat.leb 0 x && PrimFloat.ltb x (PyFloat.of_int (displayWidth cfg)))
  && (PrimFloat.leb 0 y && PrimFloat.ltb y (PyFloat.of_int (displayHeight cfg))).

(** the cell [(y, x)] of the buffer, for in-range non-negative indices *)
Definition pixel (s : state float) (y x : nat) : option colour :=
  row ← pixelColourArray s !! y; row !! x.

(** A computation preserves the preorder [R] when the state it leaves is
    related to the one it started in, whether it returns or raises. *)
Definition preserves {num A} (R : relation (state num)) (m : M num A) : Prop :=
  forall s, R s (snd (m s)).

(** the live count does not grow *)
Definition shrinks {num} : relation (state num) :=
  fun s s' => (count s' <= count s)%nat.

(** channel bounds are kept *)
Definition keeps_channels : relation (state float) :=
  fun s s' => channels_ok s -> channels_ok s'.

(** The motion update as the specification words it (section 4.2): the
    angle of the noise field, the acceleration vector, the damped velocity
    [(old + acceleration) / (1 + friction)], the new position. *)
Definition advance_spec (lib : library) (cfg : config) (x y velX velY : float)
    : particle :=
  let angle := sampleAngle lib cfg x y in
  let accelX := (cos lib angle * acceleration cfg)%float in
  let accelY := (sin lib angle * acceleration cfg)%float in
  let newVelX := ((velX + accelX) / (1 + friction cfg))%float in
  let newVelY := ((velY + accelY) / (1 + friction cfg))%float in
  ((x + newVelX)%float, (y + newVelY)%float, newVelX, newVelY).

(** The paint a particle's step issues when interpolation is off, if it
    issues one: the cell at the integer truncation of the particle's new
    position after [boundPositionToWindow]. *)
Definition plainPaint (lib : library) (cfg : config) (currentParticle : Z)
    (s : state float) : option paint :=
  match getParticle currentParticle s with
  | (Ok (x1, y1, vx1, vy1), s0) =>
      match getNewParticlePosition lib cfg x1 y1 vx1 vy1 currentParticle s0 with
      | (Ok (newX, newY, _, _), s1) =>
          match boundPositionToWindow cfg newX newY currentParticle s1 with
          | (Ok (x2, y2), _) =>
              match PyFloat.to_int x2, PyFloat.to_int y2 with
              | Ok xi, Ok yi => Some (Paint yi xi currentParticle)
              | _, _ => None
              end
          | (Raise _, _) => None
          end
      | (Raise _, _) => None
      end
  | (Raise _, _) => None
  end.

(** a call that discards the status [drawParticle] returns *)
Definition ignoreStatus (r : result Z * state float) : result unit * state float :=
  (match fst r with Ok _ => Ok tt | Raise e => Raise e end, snd r).

(** the paint log is left as it was *)
Definition same_paints {num} : relation (state num) :=
  fun s s' => paints s' = paints s.

(** ** Concrete settings and inputs *)

(** the float64 that the literal [0.1] denotes *)
Definition tenth : float := 0x1.999999999999ap-4%float.

(** the settings [main.py] ships with *)
Definition defaults : config :=
  Config 400 400 1000 5%float (1, 6, 24) tenth 1%float true true.

(** the same with [mirrorEdgesOnContact = False] *)
Definition deleteMode : config :=
  Config 400 400 1000 5%float (1, 6, 24) tenth 1%float false true.

(** the same with [interpolation = False] *)
Definition deleteModePlain : config :=
  Config 400 400 1000 5%float (1, 6, 24) tenth 1%float false false.

(** the shipped settings with [interpolation = False] *)
Definition plain : config :=
  Config 400 400 1000 5%float (1, 6, 24) tenth 1%float true false.

(** the shipped settings with [friction = 0] *)
Definition frictionless : config :=
  Config 400 400 1000 5%float (1, 6, 24) 0%float 1%float true true.

(** A noise provider that returns 0 everywhere: every angle is then
    [math.pi * 2 * 0.5 = math.pi], where [math.cos] returns [-1.0] and
    [math.sin] returns [1.2246467991473532e-16]; no other angle is asked
    for, and the table answers nan there. *)
Definition constantNoise : library :=
  Library (fun _ _ => 0%float)
          (fun r => if PrimFloat.eqb r PyFloat.pi then (-1)%float else nan)
          (fun r => if PrimFloat.eqb r PyFloat.pi then 0x1.1a62633145c07p-53%float else nan).

(** the all-zero buffer of the shipped settings *)
Definition blank : list (list colour) := pixelColourArray (startup defaults []).

(** the position columns of the collection *)
Definition positions (s : state float) : list (float * float) :=
  (fun p : particle => let '(x, y, _, _) := p in (x, y)) <$> particlePositions s.

(** the buffer in which the cell in row 5, column 10 has been painted 254
    times with the shipped colour and no other cell has been touched *)
Definition nearlyWhite : list (list colour) :=
  <[5%nat := <[10%nat := (254, 255, 255)]> (replicate 400 (0, 0, 0))]> blank.

(** ** Notions for the further properties *)

(** the length of every row of the buffer *)
Definition shape (s : state float) : list nat := length <$> pixelColourArray s.

(** the buffer keeps its dimensions *)
Definition same_shape : relation (state float) :=
  fun s s' => shape s' = shape s.

(** no cell of the buffer holds (255, 255, 255) *)
Definition unsaturated (s : state float) : Prop :=
  Forall (Forall (fun c => saturated c = false)) (pixelColourArray s).

Definition keeps_unsaturated : relation (state float) :=
  fun s s' => unsaturated s -> unsaturated s'.

(** channel by channel, [c] is at most [c'] *)
Definition colour_le (c c' : colour) : Prop :=
  let '(r, g, b) := c in
  let '(r', g', b') := c' in
  r <= r' /\ g <= g' /\ b <= b'.

(** cell by cell, no channel of a buffer with channels in range has gone
    down, and the channels are still in range *)
Definition brightens : relation (state float) :=
  fun s s' =>
    channels_ok s ->
    channels_ok s'
    /\ Forall2 (Forall2 colour_le) (pixelColourArray s) (pixelColourArray s').

(** every channel of the colour increment lies in 0..255 (the file asks
    for 1 to 255), so the int64 sum with a cell cannot wrap *)
Definition increment_in_range (cfg : config) : Prop :=
  let '(r, g, b) := pixelColourRGB cfg in
  0 <= r <= 255 /\ 0 <= g <= 255 /\ 0 <= b <= 255.

(** processing the particles at the given indices, in order *)
Fixpoint processAll (lib : library) (cfg : config) (indices : list Z)
    : M float unit :=
  match indices with
  | [] => ret tt
  | currentParticle :: indices =>
      processParticle lib cfg currentParticle ;;
      processAll lib cfg indices
  end.

(** ** The name of a screenshot ([saveScreenshot]) *)

(** the [colours] presets, in the order of the dict *)
Definition colours : list (string * colour) :=
  [("red", (20, 1, 1)); ("orange", (20, 10, 1)); ("yellow", (10, 10, 1));
   ("green", (1, 20, 1)); ("turquoise", (1, 14, 20)); ("blue", (1, 6, 24));
   ("purple", (8, 1, 16)); ("white", (8, 8, 8))]%string.

(** The [for name, value in colours.items()] loop: [parts] after it, the
    name of the first preset whose value equals the colour, if any. *)
Fixpoint presetName (table : list (string * colour)) (rgb : colour) : list string :=
  match table with
  | [] => []
  | (name, value) :: table =>
      if decide (value = rgb) then [name] else presetName table rgb
  end.

(** [parts] when the name is joined *)
Definition screenshotParts (cfg : config) : list string :=
  presetName colours (pixelColourRGB cfg)
  ++ (if interpolation cfg then ["interpolation"%string] else [])
  ++ (if mirrorEdgesOnContact cfg then ["mirror"%string] else []).

(** [sep.join(parts)] *)
Fixpoint str_join (sep : string) (parts : list string) : string :=
  match parts with
  | [] => ""
  | [part] => part
  | part :: parts => part +:+ sep +:+ str_join sep parts
  end.

Definition startswith_sep (s : string) : bool :=
  match s with
  | String c _ => Ascii.eqb c "/"%char
  | EmptyString => false
  end.

Fixpoint endswith_sep (s : string) : bool :=
  match s with
  | EmptyString => false
  | String c EmptyString => Ascii.eqb c "/"%char
  | String _ s => endswith_sep s
  end.

(** [os.path.join(a, b)] on POSIX *)
Definition path_join (a b : string) : string :=
  if startswith_sep b then b
  else if String.eqb a "" || endswith_sep a then a +:+ b
  else a +:+ "/" +:+ b.

(** [os.path.join(folder, f"{name}-{i}.png")] *)
Definition candidate (folder name : string) (i : nat) : string :=
  path_join folder (name +:+ "-" +:+ pretty i +:+ ".png").

(** The [while os.path.exists(...)] loop from index [i], for at most [fuel]
    tests: the first index whose file does not exist.  [files] is the set
    of paths that exist when the loop runs, that is once
    [os.makedirs(folder, exist_ok=True)] has returned. *)
Fixpoint firstFree (files : gset string) (folder name : string) (fuel i : nat)
    : option nat :=
  match fuel with
  | O => None
  | S fuel =>
      if bool_decide (candidate folder name i ∈ files)
      then firstFree files folder name fuel (S i)
      else Some i
  end.

(** The file [saveScreenshot] saves to and the paths that exist after it
    has: [None] when [fuel] tests did not find a free index. *)
Definition saveScreenshot (cfg : config) (files : gset string) (folder : string)
    (fuel : nat) : option (string * gset string) :=
  let name := str_join "-" (screenshotParts cfg) in
  i ← firstFree files folder name fuel 0;
  let filename := candidate folder name i in
  Some (filename, {[filename]} ∪ files).

(** * Properties *)

(** ** Preservation through the monad *)

Section Preservation.
Context {num : Type} (R : relation (state num)) `{!PreOrder R}.

Lemma preserves_ret {A} (a : A) : preserves R (ret a).
Proof. intros s. reflexivity. Qed.

Lemma preserves_raise {A} (e : exn) : preserves R (raise (A := A) e).
Proof. intros s. reflexivity. Qed.

Lemma preserves_lift {A} (r : result A) : preserves R (lift r).
Proof. intros s. reflexivity. Qed.

Lemma preserves_get : preserves R get.
Proof. intros s. reflexivity. Qed.

Lemma preserves_bind {A B} (m : M num A) (k : A -> M num B) :
  preserves R m -> (forall a, preserves R (k a)) -> preserves R (bind m k).
Proof.
  intros Hm Hk s. unfold bind.
  specialize (Hm s). destruct (m s) as [[a|e] s1]; simpl in *.
  - etransitivity; [exact Hm | apply Hk].
  - exact Hm.
Qed.

(** a computation that reads the state first *)
Lemma preserves_get_bind {A} (k : state num -> M num A) :
  (forall s, R s (snd (k s s))) -> preserves R (bind get k).
Proof. intros Hk s. unfold bind, get. apply Hk. Qed.

End Preservation.

#[local] Instance shrinks_preorder {num} : PreOrder (@shrinks num).
Proof.
  split; unfold shrinks.
  - intros s. lia.
  - intros s1 s2 s3. lia.
Qed.

#[local] Instance keeps_channels_preorder : PreOrder keeps_channels.
Proof.
  split; unfold keeps_channels.
  - intros s. tauto.
  - intros s1 s2 s3. tauto.
Qed.

(** Splits a goal [preserves R m] along the structure of [m]. *)
Ltac preserve_step :=
  lazymatch goal with
  | |- PreOrder _ => typeclasses eauto
  | |- forall _, preserves _ _ => intros ?
  | |- preserves _ (bind _ _) => apply preserves_bind
  | |- preserves _ (ret _) => apply preserves_ret
  | |- preserves _ (raise _) => apply preserves_raise
  | |- preserves _ (lift _) => apply preserves_lift
  | |- preserves _ get => apply preserves_get
  | |- preserves _ (if ?b then _ else _) => destruct b
  | |- preserves _ (match ?x with _ => _ end) => destruct x
  end.

Ltac preserve := repeat preserve_step; try assumption.

(** ** The live count never grows *)

Section Shrinks.
Context {num : Type} `{Number num}.

Lemma length_delete_le {A} (l : list A) i : (length (delete i l) <= length l)%nat.
Proof.
  revert i. induction l as [|a l IH]; intros [|i]; simpl; try lia.
  specialize (IH i). lia.
Qed.

Lemma deleteParticle_shrinks cfg index :
  preserves shrinks (deleteParticle (num := num) cfg index).
Proof.
  unfold deleteParticle.
  apply preserves_get_bind. intros s.
  unfold bind, lift, put, shrinks, count.
  destruct (np_index _ index) as [i|e]; simpl; [|lia].
  destruct (points cfg =? 0); simpl; apply length_delete_le.
Qed.

End Shrinks.

(** ** What the four mutations preserve, every operation preserves

    The globals are written in four places only: [deleteParticle],
    [setParticle], [setPixel] and the ghost [logPaint]. *)

Section Operations.
Context (R : relation (state float)) `{!PreOrder R}.
Hypothesis R_delete : forall cfg index, preserves R (deleteParticle (num := float) cfg index).
Hypothesis R_setParticle : forall index p, preserves R (setParticle index p).
Hypothesis R_setPixel : forall y x c, preserves R (setPixel y x c).
Hypothesis R_logPaint : forall p, preserves R (logPaint p).

Lemma boundPositionToWindow_preserves cfg x y particleID :
  preserves R (boundPositionToWindow (num := float) cfg x y particleID).
Proof.
  unfold boundPositionToWindow, boundAxis. preserve; apply R_delete.
Qed.

Lemma getNewParticlePosition_preserves lib cfg x y velX velY particleID :
  preserves R (getNewParticlePosition lib cfg x y velX velY particleID).
Proof. unfold getNewParticlePosition, math_trig. preserve. Qed.

Lemma getPixel_preserves y x : preserves R (getPixel y x).
Proof. unfold getPixel. preserve. Qed.

Lemma getParticle_preserves index : preserves R (getParticle index).
Proof. unfold getParticle. preserve. Qed.

Lemma drawParticle_preserves cfg x y currentPos :
  preserves R (drawParticle cfg x y currentPos).
Proof.
  unfold drawParticle. preserve;
    auto using getPixel_preserves.
Qed.

Lemma drawLine_loop_preserves cfg lerpPositions particleID :
  preserves R (drawLine_loop cfg lerpPositions particleID).
Proof.
  induction lerpPositions as [|pos rest IH]; simpl; preserve;
    auto using boundPositionToWindow_preserves, drawParticle_preserves.
Qed.

Lemma drawLine_preserves cfg x1 y1 x2 y2 particleID :
  preserves R (drawLine cfg x1 y1 x2 y2 particleID).
Proof.
  unfold drawLine, py_truediv. preserve. apply drawLine_loop_preserves.
Qed.

Lemma processParticle_preserves lib cfg currentParticle :
  preserves R (processParticle lib cfg currentParticle).
Proof.
  unfold processParticle. preserve;
    auto using getParticle_preserves, getNewParticlePosition_preserves,
      boundPositionToWindow_preserves, drawParticle_preserves, drawLine_preserves.
Qed.

Lemma sweep_preserves lib cfg fuel particlePositionLength currentParticle :
  preserves R (sweep lib cfg fuel particlePositionLength currentParticle).
Proof.
  revert currentParticle.
  induction fuel as [|fuel IH]; intros currentParticle; simpl; preserve;
    auto using processParticle_preserves.
Qed.

Lemma frame_preserves lib cfg : preserves R (frame lib cfg).
Proof. unfold frame. preserve. apply sweep_preserves. Qed.

End Operations.

(** ** Instances: the live count and the channel bounds *)

Lemma setParticle_shrinks index p : preserves shrinks (setParticle index p).
Proof.
  unfold setParticle. apply preserves_get_bind. intros s.
  unfold bind, lift, put, shrinks, count.
  destruct (np_index _ index) as [i|e]; simpl; [|lia].
  rewrite length_insert. lia.
Qed.

Lemma setPixel_shrinks y x c : preserves shrinks (setPixel y x c).
Proof.
  unfold setPixel. apply preserves_get_bind. intros s.
  unfold bind, lift, put, raise, shrinks, count.
  destruct (np_index _ y) as [i|e]; simpl; [|lia].
  destruct (pixelColourArray s !! i) as [row|]; simpl; [|lia].
  destruct (np_index _ x) as [j|e]; simpl; [|lia].
  destruct c as [[r g] b]. simpl. lia.
Qed.

Lemma logPaint_shrinks p : preserves shrinks (logPaint p).
Proof. intros s. unfold shrinks, count. simpl. lia. Qed.

Lemma frame_shrinks lib cfg : preserves shrinks (frame lib cfg).
Proof.
  apply frame_preserves; first typeclasses eauto;
    auto using deleteParticle_shrinks, setParticle_shrinks,
      setPixel_shrinks, logPaint_shrinks.
Qed.

Lemma uint8_range v : (0 <= uint8 v <= 255)%Z.
Proof. unfold uint8. pose proof (Z.mod_pos_bound v 256). lia. Qed.

Lemma deleteParticle_keeps_channels cfg index :
  preserves keeps_channels (deleteParticle (num := float) cfg index).
Proof.
  unfold deleteParticle. apply preserves_get_bind. intros s.
  unfold bind, lift, put, raise, keeps_channels, channels_ok.
  destruct (np_index _ index) as [i|e]; simpl; [|tauto].
  destruct (points cfg =? 0); simpl; tauto.
Qed.

Lemma setParticle_keeps_channels index p :
  preserves keeps_channels (setParticle index p).
Proof.
  unfold setParticle. apply preserves_get_bind. intros s.
  unfold bind, lift, put, keeps_channels, channels_ok.
  destruct (np_index _ index) as [i|e]; simpl; tauto.
Qed.

Lemma setPixel_keeps_channels y x c : preserves keeps_channels (setPixel y x c).
Proof.
  unfold setPixel. apply preserves_get_bind. intros s.
  unfold bind, lift, put, raise, keeps_channels, channels_ok.
  destruct (np_index _ y) as [i|e]; simpl; [|tauto].
  destruct (pixelColourArray s !! i) as [row|] eqn:Hrow; simpl; [|tauto].
  destruct (np_index _ x) as [j|e]; simpl; [|tauto].
  destruct c as [[r g] b]. simpl. intros Hok.
  apply Forall_insert; [exact Hok|].
  apply Forall_insert.
  - exact (Forall_lookup_1 _ _ _ _ Hok Hrow).
  - unfold colour_ok. auto using uint8_range.
Qed.

Lemma logPaint_keeps_channels p : preserves keeps_channels (logPaint p).
Proof. intros s. unfold keeps_channels, channels_ok. simpl. tauto. Qed.

Lemma startup_channels_ok cfg draws : channels_ok (startup cfg draws).
Proof.
  unfold channels_ok, startup. simpl.
  apply Forall_replicate, Forall_replicate. unfold colour_ok. lia.
Qed.

(** ** The main loop *)

Lemma frame_empty lib cfg s : count s = 0%nat -> frame lib cfg s = (Ok false, s).
Proof.
  unfold count, frame, bind, get. intros ->. reflexivity.
Qed.

Lemma frame_running lib cfg s b s' :
  frame lib cfg s = (Ok b, s') -> b = negb (Nat.eqb (count s) 0).
Proof.
  unfold frame, bind, get, ret, count.
  destruct (sweep _ _ _ _ _ s) as [[[]|e] s1]; [|discriminate].
  intros [= <- <-]. destruct (particlePositions s); reflexivity.
Qed.

Lemma atFrame_empty lib cfg n s : count s = 0%nat -> atFrame lib cfg n s = Some s.
Proof.
  intros Hs. induction n as [|n IH]; simpl; [reflexivity|].
  rewrite (frame_empty _ _ _ Hs). exact IH.
Qed.

Lemma mainLoop_exits lib cfg fuel s s' :
  mainLoop lib cfg fuel s = (Ok true, s') <->
  exists n, (n < fuel)%nat /\ atFrame lib cfg n s = Some s' /\ count s' = 0%nat.
Proof.
  revert s. induction fuel as [|fuel IH]; intros s; simpl.
  { split; [discriminate | intros (n & Hn & _); lia]. }
  unfold bind at 1.
  destruct (frame lib cfg s) as [[running|e] s1] eqn:Hframe.
  - pose proof (frame_running _ _ _ _ _ Hframe) as Hrun.
    destruct (count s) as [|c] eqn:Hcount; simpl in Hrun; subst running.
    + rewrite (frame_empty _ _ _ Hcount) in Hframe.
      injection Hframe as <-. unfold ret. split.
      * intros [= <-]. exists 0%nat. simpl. repeat split; [lia | exact Hcount].
      * intros (n & _ & Hat & _).
        rewrite (atFrame_empty _ _ _ _ Hcount) in Hat. congruence.
    + rewrite IH. split.
      * intros (n & Hn & Hat & Hz). exists (S n). simpl. rewrite Hframe.
        repeat split; [lia | exact Hat | exact Hz].
      * intros ([|n] & Hn & Hat & Hz); simpl in Hat.
        -- injection Hat as <-. congruence.
        -- rewrite Hframe in Hat. exists n. repeat split; [lia | exact Hat | exact Hz].
  - split; [discriminate|].
    intros ([|n] & Hn & Hat & Hz); simpl in Hat.
    + injection Hat as <-.
      rewrite (frame_empty _ _ _ Hz) in Hframe. discriminate.
    + rewrite Hframe in Hat. discriminate.
Qed.

(** ** Float arithmetic *)

Lemma SFadd_comm prec emax a b : SFadd prec emax a b = SFadd prec emax b a.
Proof.
  destruct a as [sa|sa| |sa ma ea], b as [sb|sb| |sb mb eb]; simpl;
    try reflexivity.
  - destruct sa, sb; reflexivity.
  - destruct sa, sb; reflexivity.
  - rewrite (Z.min_comm eb ea). f_equal. apply Z.add_comm.
Qed.

Lemma float_add_comm (a b : float) : (a + b = b + a)%float.
Proof. apply Prim2SF_inj. rewrite !add_spec. apply SFadd_comm. Qed.

(** ** The claims *)

(** C4: in every state the program can reach, from the all-zero buffer and
    through any sequence of paints, rasterizations, particle steps and
    frames, each of the three channels of every cell lies in 0..255. *)
Theorem C4_channels_stay_in_range lib cfg s :
  reachable lib cfg s -> channels_ok s.
Proof.
  induction 1 as [draws | s x y currentPos _ IH | s x1 y1 x2 y2 particleID _ IH
                  | s currentParticle _ IH | s _ IH].
  - apply startup_channels_ok.
  - revert IH. apply drawParticle_preserves; first typeclasses eauto;
      auto using deleteParticle_keeps_channels, setPixel_keeps_channels,
        logPaint_keeps_channels.
  - revert IH. apply drawLine_preserves; first typeclasses eauto;
      auto using deleteParticle_keeps_channels, setPixel_keeps_channels,
        logPaint_keeps_channels.
  - revert IH. apply processParticle_preserves; first typeclasses eauto;
      auto using deleteParticle_keeps_channels, setParticle_keeps_channels,
        setPixel_keeps_channels, logPaint_keeps_channels.
  - revert IH. apply frame_preserves; first typeclasses eauto;
      auto using deleteParticle_keeps_channels, setParticle_keeps_channels,
        setPixel_keeps_channels, logPaint_keeps_channels.
Qed.

(** The state after one frame of the shipped program on one particle, then
    one more paint, is reachable, so its channels are in range. *)
Lemma C4_channels_stay_in_range_witness :
  channels_ok
    (snd (drawParticle defaults 10 5 0
            (snd (frame constantNoise defaults (startup defaults [(10, 5)]))))).
Proof.
  apply (C4_channels_stay_in_range constantNoise defaults).
  apply reach_drawParticle, reach_frame, reach_startup.
Defined.

(** C8: a frame never increases the live particle count, and the main loop
    is left exactly when some frame starts with no live particle: running
    [fuel] frames from [s] exits in state [s'] iff [s'] is the state at the
    start of one of these frames and holds no particle. *)
Theorem C8_population_and_halting lib cfg s :
  (count (snd (frame lib cfg s)) <= count s)%nat
  /\ forall fuel s',
       mainLoop lib cfg fuel s = (Ok true, s') <->
       exists n, (n < fuel)%nat /\ atFrame lib cfg n s = Some s' /\ count s' = 0%nat.
Proof.
  split.
  - apply (frame_shrinks lib cfg s).
  - intros fuel s'. apply mainLoop_exits.
Qed.

(** C5: when the sampled angle is finite, the motion update returns exactly
    the specified new position and velocity and leaves the globals as they
    were. *)
Theorem C5_motion_update lib cfg x y velX velY particleID s :
  PrimFloat.is_infinity (sampleAngle lib cfg x y) = false ->
  getNewParticlePosition lib cfg x y velX velY particleID s
  = (Ok (advance_spec lib cfg x y velX velY), s).
Proof.
  intros Hfinite.
  unfold getNewParticlePosition, advance_spec, math_trig, bind, ret.
  rewrite Hfinite. cbn zeta.
  rewrite (float_add_comm (friction cfg) 1). reflexivity.
Qed.

(** With the constant noise provider the angle is [math.pi]. *)
Lemma C5_motion_update_witness :
  getNewParticlePosition constantNoise defaults 10 5 (-5) 0 0
    (State [] blank [])
  = (Ok (advance_spec constantNoise defaults 10 5 (-5) 0), State [] blank []).
Proof.
  apply (C5_motion_update constantNoise defaults 10 5 (-5) 0 0 (State [] blank [])).
  reflexivity.
Defined.

(** C6 as stated fails: with [friction = 0] the rasterizer raises
    [ZeroDivisionError] instead of returning. *)
Lemma C6_frictionless_drawLine_raises :
  let s := State [(3, 1, 2, 0)%float] blank [] in
  drawLine frictionless 1 1 3 1 0 s = (Raise ZeroDivisionError, s)
  /\ ~ (exists s', drawLine frictionless 1 1 3 1 0 s = (Ok tt, s')).
Proof.
  assert (H : drawLine frictionless 1 1 3 1 0 (State [(3, 1, 2, 0)%float] blank [])
              = (Raise ZeroDivisionError, State [(3, 1, 2, 0)%float] blank [])).
  { reflexivity. }
  cbn zeta. split; [exact H|].
  intros [s' Hs']. rewrite H in Hs'. discriminate.
Qed.

(** C6, amended: with [friction = 0] (either zero of float64) every call of
    the rasterizer raises [ZeroDivisionError] at the edge-margin
    computation, with nothing painted, deleted or otherwise changed. *)
Theorem C6_zero_friction_raises cfg x1 y1 x2 y2 particleID s :
  PrimFloat.eqb (friction cfg) 0 = true ->
  drawLine cfg x1 y1 x2 y2 particleID s = (Raise ZeroDivisionError, s).
Proof.
  intros Hzero. unfold drawLine, py_truediv, bind.
  rewrite Hzero. reflexivity.
Qed.

Lemma C6_zero_friction_raises_witness :
  drawLine frictionless 10 5 4 5 0 (State [(4, 5, -6, 0)%float] blank [])
  = (Raise ZeroDivisionError, State [(4, 5, -6, 0)%float] blank []).
Proof.
  apply (C6_zero_friction_raises frictionless 10 5 4 5 0).
  reflexivity.
Defined.

(** ** The wrap on float64 *)

(** C7 at an input with the shipped settings.  A particle at x = 1 whose
    step ends at -2^-51 is wrapped by [x %= displayWidth] to 400.0, the
    width itself, which is outside the window; the position is written
    back, and with interpolation off the paint at column 400 raises
    [IndexError].  Shifting a coordinate by one width changes the result of
    the clamp as well. *)
Theorem C7_wrap_reaches_the_width :
  let s := State [(1, 5, -0x1.99999999999c8p-4, 0); (7, 7, 0, 0)]%float blank [] in
  let tiny := 0x1p-60%float in
  (exists velX velY,
     fst (getNewParticlePosition constantNoise defaults
            1 5 (-0x1.99999999999c8p-4) 0 0 s)
     = Ok ((-0x1p-51)%float, 5%float, velX, velY))
  /\ boundPositionToWindow defaults (-0x1p-51)%float 5%float 0 s
     = (Ok (400, 5)%float, s)
  /\ inWindow defaults 400 5 = false
  /\ positions (snd (processParticle constantNoise defaults 0 s))
     = [(400, 5); (7, 7)]%float
  /\ fst (processParticle constantNoise plain 0 s) = Raise IndexError
  /\ boundPositionToWindow defaults tiny 5%float 0 s = (Ok (tiny, 5%float), s)
  /\ boundPositionToWindow defaults (tiny + 1 * 400)%float 5%float 0 s
     = (Ok (0, 5)%float, s).
Proof.
  cbn zeta. repeat split; try (vm_compute; reflexivity).
  eexists _, _. vm_compute. reflexivity.
Qed.

(** ** One paint *)

(** unfolds the monad's operations once the program's are unfolded *)
Ltac expose_monad := cbv beta iota delta [bind ret lift get put raise].

Lemma uint8_clip v : uint8 (clip v) = clip v.
Proof. unfold uint8, clip. apply Z.mod_small. lia. Qed.

Lemma addColour_uint8 cfg c :
  let '(r, g, b) := addColour cfg c in (uint8 r, uint8 g, uint8 b) = addColour cfg c.
Proof.
  unfold addColour. destruct c as [[r g] b], (pixelColourRGB cfg) as [[cr cg] cb].
  rewrite !uint8_clip. reflexivity.
Qed.

Section Paint.
Variables (cfg : config) (x y : float) (currentPos : Z) (s : state float).
Variables (xi yi : Z) (i j : nat) (row : list colour) (c : colour).
Hypothesis Hx : PyFloat.to_int x = Ok xi.
Hypothesis Hy : PyFloat.to_int y = Ok yi.
Hypothesis Hi : np_index (Z.of_nat (length (pixelColourArray s))) yi = Ok i.
Hypothesis Hrow : pixelColourArray s !! i = Some row.
Hypothesis Hj : np_index (Z.of_nat (length row)) xi = Ok j.
Hypothesis Hc : row !! j = Some c.

(** the paint leaves the cell short of saturation: it is stored *)
Lemma drawParticle_continue :
  saturated (addColour cfg c) = false ->
  drawParticle cfg x y currentPos s
  = (Ok 0,
     State (particlePositions s)
           (<[i := <[j := addColour cfg c]> row]> (pixelColourArray s))
           (paints s ++ [Paint yi xi currentPos])).
Proof.
  intros Hsat.
  unfold drawParticle, getPixel, setPixel, logPaint. expose_monad.
  rewrite Hx, Hy. simpl. rewrite Hi, Hrow, Hj, Hc, Hsat. simpl.
  rewrite Hi, Hrow, Hj.
  pose proof (addColour_uint8 cfg c) as Hcast.
  destruct (addColour cfg c) as [[r g] b]. rewrite Hcast. reflexivity.
Qed.

(** the paint would saturate the cell: the particle is deleted instead *)
Lemma drawParticle_died k :
  saturated (addColour cfg c) = true ->
  np_index (Z.of_nat (count s)) currentPos = Ok k ->
  points cfg <> 0 ->
  drawParticle cfg x y currentPos s
  = (Ok 1,
     State (delete k (particlePositions s)) (pixelColourArray s)
           (paints s ++ [Paint yi xi currentPos])).
Proof.
  intros Hsat Hk Hpoints.
  unfold drawParticle, getPixel, logPaint, deleteParticle. expose_monad.
  rewrite Hx, Hy. simpl. rewrite Hi, Hrow, Hj, Hc, Hsat. simpl.
  unfold count in Hk. rewrite Hk. simpl.
  destruct (Z.eqb_spec (points cfg) 0); [contradiction | reflexivity].
Qed.

End Paint.

(** the sample loop stops at the paint that reports death *)
Lemma drawLine_loop_stops cfg pos rest particleID s0 x3 y3 s1 s2 :
  boundPositionToWindow cfg (fst pos) (snd pos) particleID s0 = (Ok (x3, y3), s1) ->
  PrimFloat.eqb (x3 + y3) 0 = false ->
  drawParticle cfg x3 y3 particleID s1 = (Ok 1, s2) ->
  drawLine_loop cfg (pos :: rest) particleID s0 = (Ok tt, s2).
Proof.
  intros Hbound Hsum Hdraw. simpl. unfold bind at 1. rewrite Hbound.
  rewrite Hsum. unfold bind. rewrite Hdraw. reflexivity.
Qed.

(** C2 as stated fails: a paint that would complete the saturation of a
    cell reports death without adding the increment; the cell keeps its
    value and never shows (255, 255, 255). *)
Lemma C2_saturating_paint_is_not_stored :
  let s := State [(10, 5, -5, 0)%float] nearlyWhite [] in
  let s' := snd (drawParticle defaults 10 5 0 s) in
  pixel s 5 10 = Some (254, 255, 255)
  /\ addColour defaults (254, 255, 255) = (255, 255, 255)
  /\ fst (drawParticle defaults 10 5 0 s) = Ok 1
  /\ pixel s' 5 10 = Some (254, 255, 255)
  /\ pixel s' 5 10 <> Some (addColour defaults (254, 255, 255)).
Proof.
  cbn zeta. repeat split; try reflexivity.
  vm_compute. discriminate.
Qed.

(** C2, amended: a paint on a cell inside the buffer computes the clamped
    sum of the cell and the colour increment.  Short of (255, 255, 255) the
    sum is stored in the cell, the call reports continue (0) and the
    collection is untouched.  At (255, 255, 255) the cell is left as it
    was, the call reports died (1) and removes the row at the particle's
    index, and a sample loop whose paint this was ends there, so no further
    paint follows. *)
Theorem C2_paint_and_saturation cfg x y currentPos s xi yi i j row c :
  PyFloat.to_int x = Ok xi ->
  PyFloat.to_int y = Ok yi ->
  np_index (Z.of_nat (length (pixelColourArray s))) yi = Ok i ->
  pixelColourArray s !! i = Some row ->
  np_index (Z.of_nat (length row)) xi = Ok j ->
  row !! j = Some c ->
  (saturated (addColour cfg c) = false ->
   drawParticle cfg x y currentPos s
   = (Ok 0,
      State (particlePositions s)
            (<[i := <[j := addColour cfg c]> row]> (pixelColourArray s))
            (paints s ++ [Paint yi xi currentPos])))
  /\ (saturated (addColour cfg c) = true ->
      forall k,
        np_index (Z.of_nat (count s)) currentPos = Ok k ->
        points cfg <> 0 ->
        let died := State (delete k (particlePositions s)) (pixelColourArray s)
                          (paints s ++ [Paint yi xi currentPos]) in
        drawParticle cfg x y currentPos s = (Ok 1, died)
        /\ forall pos rest s0,
             boundPositionToWindow cfg (fst pos) (snd pos) currentPos s0
             = (Ok (x, y), s) ->
             PrimFloat.eqb (x + y) 0 = false ->
             drawLine_loop cfg (pos :: rest) currentPos s0 = (Ok tt, died)).
Proof.
  intros Hx Hy Hi Hrow Hj Hc. split.
  - intros Hsat. eapply drawParticle_continue; eassumption.
  - intros Hsat k Hk Hpoints died.
    assert (Hdied : drawParticle cfg x y currentPos s = (Ok 1, died)).
    { eapply drawParticle_died; eassumption. }
    split; [exact Hdied|].
    intros pos rest s0 Hbound Hsum.
    eapply drawLine_loop_stops; eassumption.
Qed.

(** The shipped settings, a cell one paint short of saturation: the paint
    deletes particle 0 and stores nothing. *)
Lemma C2_paint_and_saturation_witness :
  drawParticle defaults 10 5 0 (State [(10, 5, -5, 0)%float] nearlyWhite [])
  = (Ok 1, State [] nearlyWhite [Paint 5 10 0]).
Proof.
  apply (proj2 (C2_paint_and_saturation defaults 10 5 0
                  (State [(10, 5, -5, 0)%float] nearlyWhite [])
                  10 5 5%nat 10%nat
                  (<[10%nat := (254, 255, 255)]> (replicate 400 (0, 0, 0)))
                  (254, 255, 255)
                  eq_refl eq_refl eq_refl eq_refl eq_refl eq_refl)
               eq_refl 0%nat eq_refl).
  discriminate.
Defined.

(** ** The paint log *)

#[local] Instance same_paints_preorder {num} : PreOrder (@same_paints num).
Proof.
  split; unfold same_paints.
  - intros s. reflexivity.
  - intros s1 s2 s3 H12 H23. congruence.
Qed.

Lemma deleteParticle_same_paints {num} `{Number num} cfg index :
  preserves same_paints (deleteParticle (num := num) cfg index).
Proof.
  unfold deleteParticle. apply preserves_get_bind. intros s.
  unfold same_paints. expose_monad.
  destruct (np_index _ index) as [i|e]; simpl; [|reflexivity].
  destruct (points cfg =? 0); reflexivity.
Qed.

Lemma setParticle_same_paints index p : preserves same_paints (setParticle index p).
Proof.
  unfold setParticle. apply preserves_get_bind. intros s.
  unfold same_paints. expose_monad.
  destruct (np_index _ index) as [i|e]; reflexivity.
Qed.

Lemma setPixel_same_paints y x c : preserves same_paints (setPixel y x c).
Proof.
  unfold setPixel. apply preserves_get_bind. intros s.
  unfold same_paints. expose_monad.
  destruct (np_index _ y) as [i|e]; simpl; [|reflexivity].
  destruct (pixelColourArray s !! i) as [row|]; simpl; [|reflexivity].
  destruct (np_index _ x) as [j|e]; simpl; [|reflexivity].
  destruct c as [[r g] b]. reflexivity.
Qed.

Lemma boundPositionToWindow_same_paints cfg x y particleID s :
  paints (snd (boundPositionToWindow (num := float) cfg x y particleID s)) = paints s.
Proof.
  apply (boundPositionToWindow_preserves same_paints).
  apply deleteParticle_same_paints.
Qed.

(** reading the collection or the buffer and the motion update leave the
    whole state as it was *)
Lemma getParticle_state index s : snd (getParticle index s) = s.
Proof.
  unfold getParticle. expose_monad.
  destruct (np_index _ index) as [i|e]; simpl; [|reflexivity].
  destruct (particlePositions s !! i); reflexivity.
Qed.

Lemma getPixel_state y x s : snd (getPixel y x s) = s.
Proof.
  unfold getPixel. expose_monad.
  destruct (np_index _ y) as [i|e]; simpl; [|reflexivity].
  destruct (pixelColourArray s !! i) as [row|]; simpl; [|reflexivity].
  destruct (np_index _ x) as [j|e]; simpl; [|reflexivity].
  destruct (row !! j); reflexivity.
Qed.

Lemma getNewParticlePosition_state lib cfg x y velX velY particleID s :
  snd (getNewParticlePosition lib cfg x y velX velY particleID s) = s.
Proof.
  unfold getNewParticlePosition, math_trig. expose_monad.
  destruct (PrimFloat.is_infinity _); reflexivity.
Qed.

(** a call of [drawParticle] logs at most one paint, at the truncation of
    its arguments *)
Lemma drawParticle_paints cfg x y currentPos s :
  paints (snd (drawParticle cfg x y currentPos s)) = paints s
  \/ exists xi yi,
       PyFloat.to_int x = Ok xi /\ PyFloat.to_int y = Ok yi
       /\ paints (snd (drawParticle cfg x y currentPos s))
          = paints s ++ [Paint yi xi currentPos].
Proof.
  unfold drawParticle, logPaint. expose_monad.
  destruct (PyFloat.to_int x) as [xi|e]; [|left; reflexivity].
  destruct (PyFloat.to_int y) as [yi|e]; [|left; reflexivity].
  pose proof (getPixel_state yi xi s) as Hget.
  destruct (getPixel yi xi s) as [[c|e] s0]; simpl in Hget; subst s0;
    [|left; reflexivity].
  right. exists xi, yi. repeat split.
  set (s1 := State (particlePositions s) (pixelColourArray s)
                   (paints s ++ [Paint yi xi currentPos])).
  change (paints s ++ [Paint yi xi currentPos]) with (paints s1).
  destruct (saturated (addColour cfg c)).
  - pose proof (deleteParticle_same_paints cfg currentPos s1) as Hsame.
    destruct (deleteParticle cfg currentPos s1) as [[a|e] s2]; exact Hsame.
  - pose proof (setPixel_same_paints yi xi (addColour cfg c) s1) as Hsame.
    destruct (setPixel yi xi (addColour cfg c) s1) as [[a|e] s2]; exact Hsame.
Qed.

(** with interpolation off, a particle's step logs at most one paint, and
    it is [plainPaint] *)
Lemma processParticle_plain_paints lib cfg currentParticle s :
  interpolation cfg = false ->
  paints (snd (processParticle lib cfg currentParticle s)) = paints s
  \/ exists p,
       plainPaint lib cfg currentParticle s = Some p
       /\ paints (snd (processParticle lib cfg currentParticle s)) = paints s ++ [p].
Proof.
  intros Hplain. unfold processParticle, plainPaint. rewrite Hplain.
  expose_monad.
  pose proof (getParticle_state currentParticle s) as H1.
  destruct (getParticle currentParticle s) as [[[[[x1 y1] vx1] vy1]|e] s0];
    simpl in H1; subst s0; [|left; reflexivity].
  pose proof (getNewParticlePosition_state lib cfg x1 y1 vx1 vy1 currentParticle s) as H2.
  destruct (getNewParticlePosition lib cfg x1 y1 vx1 vy1 currentParticle s)
    as [[[[[newX newY] vx2] vy2]|e] s1]; simpl in H2; subst s1;
    [|left; reflexivity].
  pose proof (boundPositionToWindow_same_paints cfg newX newY currentParticle s) as H3.
  destruct (boundPositionToWindow cfg newX newY currentParticle s)
    as [[[x2 y2]|e] s2]; simpl in H3; [|left; exact H3].
  destruct (PrimFloat.eqb (x2 + y2) 0); [left; exact H3|].
  pose proof (setParticle_same_paints currentParticle (x2, y2, vx2, vy2) s2) as H4.
  destruct (setParticle currentParticle (x2, y2, vx2, vy2) s2) as [[[]|e] s3];
    unfold same_paints in H4; simpl in H4; [|left; simpl; congruence].
  simpl.
  destruct (drawParticle_paints cfg x2 y2 currentParticle s3)
    as [H5 | (xi & yi & Hxi & Hyi & H5)].
  - left. destruct (drawParticle cfg x2 y2 currentParticle s3) as [[a|e] s4];
      simpl in *; congruence.
  - right. exists (Paint yi xi currentParticle). rewrite Hxi, Hyi. split; [reflexivity|].
    destruct (drawParticle cfg x2 y2 currentParticle s3) as [[a|e] s4];
      simpl in *; congruence.
Qed.

Lemma processParticle_plain_count lib cfg currentParticle s :
  interpolation cfg = false ->
  (length (paints (snd (processParticle lib cfg currentParticle s)))
   <= length (paints s) + 1)%nat.
Proof.
  intros Hplain.
  destruct (processParticle_plain_paints lib cfg currentParticle s Hplain)
    as [-> | (p & _ & ->)]; [lia|].
  rewrite length_app. simpl. lia.
Qed.

Lemma sweep_plain_count lib cfg fuel particlePositionLength currentParticle s :
  interpolation cfg = false ->
  (length (paints (snd (sweep lib cfg fuel particlePositionLength currentParticle s)))
   <= length (paints s) + fuel)%nat.
Proof.
  intros Hplain. revert currentParticle s.
  induction fuel as [|fuel IH]; intros currentParticle s; simpl.
  { unfold ret. simpl. lia. }
  destruct (currentParticle <? particlePositionLength); [|unfold ret; simpl; lia].
  expose_monad.
  destruct (Z.of_nat (length (particlePositions s)) <=? currentParticle);
    [simpl; lia|].
  pose proof (processParticle_plain_count lib cfg currentParticle s Hplain) as Hone.
  destruct (processParticle lib cfg currentParticle s) as [[[]|e] s1];
    simpl in Hone; [|simpl; lia].
  specialize (IH (currentParticle + 1) s1). lia.
Qed.

Lemma frame_plain_count lib cfg s :
  interpolation cfg = false ->
  (length (paints (snd (frame lib cfg s))) <= length (paints s) + count s)%nat.
Proof.
  intros Hplain. unfold frame. expose_monad.
  pose proof (sweep_plain_count lib cfg (Z.to_nat (Z.of_nat (length (particlePositions s))))
                (Z.of_nat (length (particlePositions s))) 0 s Hplain) as Hsweep.
  rewrite Nat2Z.id in Hsweep |- *.
  destruct (sweep _ _ _ _ _ s) as [[[]|e] s1]; exact Hsweep.
Qed.

(** inside the window the boundary policy returns its arguments and
    touches nothing, in either mode *)
Lemma boundPositionToWindow_inWindow cfg x y particleID s :
  inWindow cfg x y = true ->
  boundPositionToWindow cfg x y particleID s = (Ok (x, y), s).
Proof.
  unfold inWindow. intros [Hx Hy]%andb_prop.
  unfold boundPositionToWindow, boundAxis. simpl.
  change (PyFloat.of_int 0) with 0%float.
  rewrite Hx, Hy. reflexivity.
Qed.

(** a one-sample rasterization is the direct paint *)
Lemma drawLine_loop_single cfg x y particleID s :
  inWindow cfg x y = true ->
  PrimFloat.eqb (x + y) 0 = false ->
  drawLine_loop cfg [(x, y)] particleID s
  = ignoreStatus (drawParticle cfg x y particleID s).
Proof.
  intros Hin Hsum. simpl. unfold bind at 1.
  rewrite (boundPositionToWindow_inWindow _ _ _ _ _ Hin), Hsum.
  unfold bind, ignoreStatus, ret.
  destruct (drawParticle cfg x y particleID s) as [[status|e] s1]; simpl;
    [|reflexivity].
  destruct (status =? 1); reflexivity.
Qed.

(** ** The fuel of the inner loop *)

(** Any fuel that covers the remaining indices gives the same sweep, so
    the fuel [frame] passes never cuts the loop short. *)
Lemma sweep_fuel lib cfg fuel fuel' particlePositionLength currentParticle s :
  particlePositionLength - currentParticle <= Z.of_nat fuel ->
  particlePositionLength - currentParticle <= Z.of_nat fuel' ->
  sweep lib cfg fuel particlePositionLength currentParticle s
  = sweep lib cfg fuel' particlePositionLength currentParticle s.
Proof.
  revert fuel' currentParticle s.
  induction fuel as [|fuel IH]; intros [|fuel'] currentParticle s Hfuel Hfuel';
    simpl; try reflexivity.
  - destruct (Z.ltb_spec currentParticle particlePositionLength); [lia | reflexivity].
  - destruct (Z.ltb_spec currentParticle particlePositionLength); [lia | reflexivity].
  - destruct (Z.ltb_spec currentParticle particlePositionLength); [|reflexivity].
    expose_monad.
    destruct (Z.of_nat (length (particlePositions s)) <=? currentParticle);
      [reflexivity|].
    destruct (processParticle lib cfg currentParticle s) as [[[]|e] s1];
      [|reflexivity].
    apply IH; lia.
Qed.

(** [nearlyWhite] is the buffer that 254 paints of one cell leave. *)
Lemma nearlyWhite_painted :
  pixelColourArray
    (Nat.iter 254 (fun s => snd (drawParticle defaults 10 5 0 s))
       (startup defaults [(10, 5)]))
  = nearlyWhite.
Proof. vm_compute. reflexivity. Qed.

(** with interpolation off, a step that reaches its paint is that paint:
    after the write-back it does what [drawParticle] does at the clamped
    position, and returns or raises as it does *)
Lemma processParticle_plain_is_paint lib cfg currentParticle s
    x1 y1 vx1 vy1 newX newY vx2 vy2 x2 y2 s2 s3 :
  interpolation cfg = false ->
  getParticle currentParticle s = (Ok (x1, y1, vx1, vy1), s) ->
  getNewParticlePosition lib cfg x1 y1 vx1 vy1 currentParticle s
  = (Ok (newX, newY, vx2, vy2), s) ->
  boundPositionToWindow cfg newX newY currentParticle s = (Ok (x2, y2), s2) ->
  PrimFloat.eqb (x2 + y2) 0 = false ->
  setParticle currentParticle (x2, y2, vx2, vy2) s2 = (Ok tt, s3) ->
  processParticle lib cfg currentParticle s
  = ignoreStatus (drawParticle cfg x2 y2 currentParticle s3).
Proof.
  intros Hplain Hget Hnew Hbound Hsum Hset.
  unfold processParticle, bind.
  rewrite Hget, Hnew, Hbound, Hsum, Hset, Hplain. simpl.
  unfold ignoreStatus, ret.
  destruct (drawParticle cfg x2 y2 currentParticle s3) as [[status|e] s4];
    reflexivity.
Qed.

(** C10: with interpolation off, a particle's step logs no paint or exactly
    one, at the truncation of its boundary-clamped new position, and a
    frame logs at most as many paints as it had live particles.  A step
    that reaches its paint does exactly what [drawParticle] does at the
    clamped position after the write-back, which is also what the
    rasterizer does for a single in-window sample; so when the clamped sum
    of that cell is (255, 255, 255) the step stores nothing and deletes the
    row at the particle's index, as a sample of the interpolated path
    does. *)
Theorem C10_plain_path lib cfg s :
  interpolation cfg = false ->
  (forall currentParticle,
     paints (snd (processParticle lib cfg currentParticle s)) = paints s
     \/ exists p,
          plainPaint lib cfg currentParticle s = Some p
          /\ paints (snd (processParticle lib cfg currentParticle s))
             = paints s ++ [p])
  /\ (length (paints (snd (frame lib cfg s))) <= length (paints s) + count s)%nat
  /\ (forall x y particleID s',
        inWindow cfg x y = true ->
        PrimFloat.eqb (x + y) 0 = false ->
        drawLine_loop cfg [(x, y)] particleID s'
        = ignoreStatus (drawParticle cfg x y particleID s'))
  /\ (forall currentParticle x1 y1 vx1 vy1 newX newY vx2 vy2 x2 y2 s2 s3,
        getParticle currentParticle s = (Ok (x1, y1, vx1, vy1), s) ->
        getNewParticlePosition lib cfg x1 y1 vx1 vy1 currentParticle s
        = (Ok (newX, newY, vx2, vy2), s) ->
        boundPositionToWindow cfg newX newY currentParticle s = (Ok (x2, y2), s2) ->
        PrimFloat.eqb (x2 + y2) 0 = false ->
        setParticle currentParticle (x2, y2, vx2, vy2) s2 = (Ok tt, s3) ->
        processParticle lib cfg currentParticle s
        = ignoreStatus (drawParticle cfg x2 y2 currentParticle s3)
        /\ forall xi yi i j row c k,
             PyFloat.to_int x2 = Ok xi ->
             PyFloat.to_int y2 = Ok yi ->
             np_index (Z.of_nat (length (pixelColourArray s3))) yi = Ok i ->
             pixelColourArray s3 !! i = Some row ->
             np_index (Z.of_nat (length row)) xi = Ok j ->
             row !! j = Some c ->
             np_index (Z.of_nat (count s3)) currentParticle = Ok k ->
             points cfg <> 0 ->
             (saturated (addColour cfg c) = true ->
              processParticle lib cfg currentParticle s
              = (Ok tt,
                 State (delete k (particlePositions s3)) (pixelColourArray s3)
                       (paints s3 ++ [Paint yi xi currentParticle])))
             /\ (saturated (addColour cfg c) = false ->
                 processParticle lib cfg currentParticle s
                 = (Ok tt,
                    State (particlePositions s3)
                          (<[i := <[j := addColour cfg c]> row]> (pixelColourArray s3))
                          (paints s3 ++ [Paint yi xi currentParticle])))).
Proof.
  intros Hplain. repeat split.
  - intros currentParticle. apply processParticle_plain_paints. exact Hplain.
  - apply frame_plain_count. exact Hplain.
  - intros x y particleID s'. apply drawLine_loop_single.
  - eapply processParticle_plain_is_paint; eassumption.
  - intros Hsat.
    rewrite (processParticle_plain_is_paint lib cfg currentParticle s
               x1 y1 vx1 vy1 newX newY vx2 vy2 x2 y2 s2 s3) by assumption.
    rewrite (drawParticle_died cfg x2 y2 currentParticle s3 xi yi i j row c)
      with (k := k) by assumption.
    reflexivity.
  - intros Hsat.
    rewrite (processParticle_plain_is_paint lib cfg currentParticle s
               x1 y1 vx1 vy1 newX newY vx2 vy2 x2 y2 s2 s3) by assumption.
    rewrite (drawParticle_continue cfg x2 y2 currentParticle s3 xi yi i j row c)
      by assumption.
    reflexivity.
Qed.

(** The shipped settings with interpolation off: particle 0 steps onto a
    cell one paint short of saturation; the step stores nothing and deletes
    the particle. *)
Lemma C10_plain_path_witness :
  processParticle constantNoise plain 0
    (State [(16, 5, -5, 0); (7, 7, 0, 0)]%float nearlyWhite [])
  = (Ok tt, State [(7, 7, 0, 0)%float] nearlyWhite [Paint 5 10 0]).
Proof.
  pose proof (C10_plain_path constantNoise plain
                (State [(16, 5, -5, 0); (7, 7, 0, 0)]%float nearlyWhite [])
                eq_refl) as (_ & _ & _ & Hstep).
  set (newX := (16 + (-5 + -1 * 1) / (tenth + 1))%float).
  set (velX := ((-5 + -1 * 1) / (tenth + 1))%float).
  set (velY := ((0 + 0x1.1a62633145c07p-53 * 1) / (tenth + 1))%float).
  set (newY := (5 + velY)%float).
  destruct (Hstep 0 16%float 5%float (-5)%float 0%float newX newY velX velY newX newY
              (State [(16, 5, -5, 0); (7, 7, 0, 0)]%float nearlyWhite [])
              (State [(newX, newY, velX, velY); (7, 7, 0, 0)%float] nearlyWhite [])
              eq_refl eq_refl eq_refl eq_refl eq_refl) as [_ Hpaint].
  destruct (Hpaint 10 5 5%nat 10%nat
              (<[10%nat := (254, 255, 255)]> (replicate 400 (0, 0, 0)))
              (254, 255, 255) 0%nat
              eq_refl eq_refl eq_refl eq_refl eq_refl eq_refl eq_refl
              ltac:(discriminate)) as [Hdied _].
  exact (Hdied eq_refl).
Defined.

(** C1 at two inputs in delete mode.  When both coordinates leave the
    window the clamp deletes two rows: the particle's and the one that
    moved into its index.  When only one leaves, the sentinel test fails,
    the row that moved into the index is overwritten with the deleted
    particle's state, and cells are painted; when no row moved into the
    index, the write-back raises [IndexError]. *)
Theorem C1_delete_mode_failing_inputs :
  let both := State [(2, 2, -3, -3); (7, 7, 0, 0); (9, 9, 0, 0)]%float blank [] in
  let one := State [(2, 5, -3, 0); (7, 7, 0, 0)]%float blank [] in
  (exists newX newY velX velY,
     fst (getNewParticlePosition constantNoise deleteMode 2 2 (-3) (-3) 0 both)
     = Ok (newX, newY, velX, velY)
     /\ PrimFloat.ltb newX 0 = true /\ PrimFloat.ltb newY 0 = true)
  /\ positions (snd (processParticle constantNoise deleteMode 0 both)) = [(9, 9)%float]
  /\ (exists newX newY velX velY,
        fst (getNewParticlePosition constantNoise deleteMode 2 5 (-3) 0 0 one)
        = Ok (newX, newY, velX, velY)
        /\ PrimFloat.ltb newX 0 = true /\ inWindow deleteMode 0 newY = true)
  /\ positions (snd (processParticle constantNoise deleteMode 0 one)) = [(0, 5)%float]
  /\ paints (snd (processParticle constantNoise deleteMode 0 one))
     = [Paint 5 2 0; Paint 5 1 0]
  /\ pixel (snd (processParticle constantNoise deleteMode 0 one)) 5 2 = Some (1, 6, 24)
  /\ paints (snd (processParticle constantNoise deleteModePlain 0 one)) = [Paint 5 0 0]
  /\ fst (processParticle constantNoise deleteMode 0
             (State [(2, 5, -3, 0)%float] blank []))
     = Raise IndexError.
Proof.
  cbn zeta. repeat split; try (vm_compute; reflexivity).
  - eexists _, _, _, _. repeat split; vm_compute; reflexivity.
  - eexists _, _, _, _. repeat split; vm_compute; reflexivity.
Qed.

(** C3 at an input with the shipped settings.  Particle 0 dies at its
    first sample, on a cell one paint short of saturation; the frame then
    ends without having processed the other particle, which a frame of its
    own would have moved. *)
Theorem C3_particle_skipped_after_death :
  let s := State [(10, 5, -5, 0); (7, 7, 0, 0)]%float nearlyWhite [] in
  let alone := State [(7, 7, 0, 0)%float] nearlyWhite [] in
  frame constantNoise defaults s
  = (Ok true, State [(7, 7, 0, 0)%float] nearlyWhite [Paint 5 10 0])
  /\ fst (frame constantNoise defaults alone) = Ok true
  /\ particlePositions (snd (frame constantNoise defaults alone))
     <> [(7, 7, 0, 0)%float].
Proof.
  cbn zeta. repeat split; try (vm_compute; reflexivity).
  intros Heq.
  apply (f_equal (fun l => match l with
                           | [(x, _, _, _)] => PrimFloat.eqb x 7
                           | _ => false
                           end)) in Heq.
  vm_compute in Heq. discriminate.
Qed.

(** C9 at a start-up draw on the edge: [randint(0, displayWidth)] may
    return [displayWidth]; the particle is then created outside the window,
    and the first frame reads that position. *)
Theorem C9_startup_on_the_right_edge :
  let draws := (400, 7) :: replicate 999 (7, 7) in
  drawn defaults draws
  /\ particlePositions (startup defaults draws) !! 0%nat = Some (400, 7, 0, 0)%float
  /\ fst (getParticle 0 (startup defaults draws)) = Ok (400, 7, 0, 0)%float
  /\ inWindow defaults 400 7 = false.
Proof.
  cbn zeta. repeat split; try (vm_compute; reflexivity).
  apply Forall_cons. split.
  - unfold randint. simpl. lia.
  - apply Forall_replicate. unfold randint. simpl. lia.
Qed.

(** * Further properties *)

(** ** What a paint preserves, every operation above it preserves *)

Section OverPaints.
Context (R : relation (state float)) `{!PreOrder R} (cfg : config).
Hypothesis R_delete : forall index, preserves R (deleteParticle (num := float) cfg index).
Hypothesis R_setParticle : forall index p, preserves R (setParticle index p).
Hypothesis R_drawParticle :
  forall x y currentPos, preserves R (drawParticle cfg x y currentPos).

Lemma boundPositionToWindow_over_paint x y particleID :
  preserves R (boundPositionToWindow (num := float) cfg x y particleID).
Proof.
  unfold boundPositionToWindow, boundAxis. preserve; apply R_delete.
Qed.

Lemma drawLine_loop_over_paint lerpPositions particleID :
  preserves R (drawLine_loop cfg lerpPositions particleID).
Proof.
  induction lerpPositions as [|pos rest IH]; simpl; preserve;
    auto using boundPositionToWindow_over_paint.
Qed.

Lemma drawLine_over_paint x1 y1 x2 y2 particleID :
  preserves R (drawLine cfg x1 y1 x2 y2 particleID).
Proof.
  unfold drawLine, py_truediv. preserve. apply drawLine_loop_over_paint.
Qed.

Lemma processParticle_over_paint lib currentParticle :
  preserves R (processParticle lib cfg currentParticle).
Proof.
  unfold processParticle. preserve;
    auto using getParticle_preserves, getNewParticlePosition_preserves,
      boundPositionToWindow_over_paint, drawLine_over_paint.
Qed.

Lemma sweep_over_paint lib fuel particlePositionLength currentParticle :
  preserves R (sweep lib cfg fuel particlePositionLength currentParticle).
Proof.
  revert currentParticle.
  induction fuel as [|fuel IH]; intros currentParticle; simpl; preserve;
    auto using processParticle_over_paint.
Qed.

Lemma frame_over_paint lib : preserves R (frame lib cfg).
Proof. unfold frame. preserve. apply sweep_over_paint. Qed.

Lemma mainLoop_over_paint lib fuel : preserves R (mainLoop lib cfg fuel).
Proof.
  induction fuel as [|fuel IH]; simpl; preserve.
  apply frame_over_paint.
Qed.

End OverPaints.

(** ** What one deletion and one paint do *)

Lemma np_index_lt n index i : np_index (Z.of_nat n) index = Ok i -> (i < n)%nat.
Proof.
  unfold np_index.
  destruct (Z.ltb_spec index (- Z.of_nat n)), (Z.leb_spec (Z.of_nat n) index);
    simpl; try discriminate.
  intros [= <-]. destruct (Z.ltb_spec index 0); lia.
Qed.

Lemma length_delete_lt {A} (l : list A) i :
  (i < length l)%nat -> length l = S (length (delete i l)).
Proof.
  intros Hi. rewrite length_delete by (apply lookup_lt_is_Some_2; exact Hi). lia.
Qed.

(** A deletion either raises [IndexError] and changes nothing, or removes
    exactly the row at the index (and then raises only when [points] is 0). *)
Lemma deleteParticle_cases cfg index (s : state float) :
  deleteParticle cfg index s = (Raise IndexError, s)
  \/ exists i,
       np_index (Z.of_nat (count s)) index = Ok i
       /\ snd (deleteParticle cfg index s)
          = State (delete i (particlePositions s)) (pixelColourArray s) (paints s)
       /\ fst (deleteParticle cfg index s)
          = if points cfg =? 0 then Raise ZeroDivisionError else Ok tt.
Proof.
  unfold deleteParticle, count. expose_monad.
  destruct (np_index _ index) as [i|e] eqn:Hi; simpl.
  - right. exists i. split; [reflexivity|].
    destruct (points cfg =? 0); split; reflexivity.
  - left. unfold np_index in Hi.
    destruct ((index <? - _) || _); [injection Hi as <-; reflexivity | discriminate].
Qed.

(** the three ways a call of [drawParticle] can end *)
Inductive painted (cfg : config) (s : state float)
    : result Z -> state float -> Prop :=
  | painted_stored i j row c s' :
      pixelColourArray s !! i = Some row ->
      row !! j = Some c ->
      saturated (addColour cfg c) = false ->
      particlePositions s' = particlePositions s ->
      pixelColourArray s' = <[i := <[j := addColour cfg c]> row]> (pixelColourArray s) ->
      painted cfg s (Ok 0) s'
  | painted_died s' :
      pixelColourArray s' = pixelColourArray s ->
      count s = S (count s') ->
      painted cfg s (Ok 1) s'
  | painted_raised e s' :
      pixelColourArray s' = pixelColourArray s ->
      (count s <= S (count s'))%nat ->
      painted cfg s (Raise e) s'.

Lemma drawParticle_painted cfg x y currentPos s :
  painted cfg s (fst (drawParticle cfg x y currentPos s))
    (snd (drawParticle cfg x y currentPos s)).
Proof.
  unfold drawParticle, getPixel, setPixel, logPaint. expose_monad.
  destruct (PyFloat.to_int x) as [xi|e]; [|apply painted_raised; [reflexivity | simpl; lia]].
  destruct (PyFloat.to_int y) as [yi|e]; [|apply painted_raised; [reflexivity | simpl; lia]].
  destruct (np_index _ yi) as [i|e] eqn:Hi;
    [|apply painted_raised; [reflexivity | simpl; lia]].
  destruct (pixelColourArray s !! i) as [row|] eqn:Hrow;
    [|apply painted_raised; [reflexivity | simpl; lia]].
  destruct (np_index _ xi) as [j|e] eqn:Hj;
    [|apply painted_raised; [reflexivity | simpl; lia]].
  destruct (row !! j) as [c|] eqn:Hc;
    [|apply painted_raised; [reflexivity | simpl; lia]].
  destruct (saturated (addColour cfg c)) eqn:Hsat.
  - set (s1 := State (particlePositions s) (pixelColourArray s)
                     (paints s ++ [Paint yi xi currentPos])).
    destruct (deleteParticle_cases cfg currentPos s1) as [Hraise | (k & Hk & Hs & Hr)].
    + rewrite Hraise. subst s1. apply painted_raised; [reflexivity | unfold count; simpl; lia].
    + destruct (deleteParticle cfg currentPos s1) as [r s2]. simpl in Hs, Hr.
      subst r s2 s1. unfold count in Hk. simpl in Hk.
      apply np_index_lt in Hk.
      pose proof (length_delete_lt (particlePositions s) k Hk) as Hlen.
      destruct (points cfg =? 0).
      * apply painted_raised; [reflexivity | unfold count; simpl; lia].
      * apply painted_died; [reflexivity | unfold count; simpl; exact Hlen].
  - simpl. rewrite Hi, Hrow, Hj.
    pose proof (addColour_uint8 cfg c) as Hcast.
    destruct (addColour cfg c) as [[r g] b] eqn:Hnew. rewrite Hcast. simpl.
    eapply painted_stored;
      [exact Hrow | exact Hc | rewrite Hnew; exact Hsat | reflexivity |].
    rewrite Hnew. reflexivity.
Qed.

Lemma deleteParticle_pixels cfg index (s : state float) :
  pixelColourArray (snd (deleteParticle cfg index s)) = pixelColourArray s.
Proof.
  destruct (deleteParticle_cases cfg index s) as [-> | (i & _ & -> & _)];
    reflexivity.
Qed.

Lemma setParticle_pixels index p s :
  pixelColourArray (snd (setParticle index p s)) = pixelColourArray s.
Proof.
  unfold setParticle. expose_monad.
  destruct (np_index _ index); reflexivity.
Qed.

(** ** The buffer keeps its dimensions *)

#[local] Instance same_shape_preorder : PreOrder same_shape.
Proof.
  split; unfold same_shape.
  - intros s. reflexivity.
  - intros s1 s2 s3 H12 H23. congruence.
Qed.

Lemma same_shape_pixels s s' :
  pixelColourArray s' = pixelColourArray s -> same_shape s s'.
Proof. unfold same_shape, shape. intros ->. reflexivity. Qed.

Lemma drawParticle_same_shape cfg x y currentPos :
  preserves same_shape (drawParticle cfg x y currentPos).
Proof.
  intros s.
  destruct (drawParticle_painted cfg x y currentPos s)
    as [i j row c s' Hrow Hc _ _ Hpix | s' Hpix _ | e s' Hpix _];
    try (apply same_shape_pixels; exact Hpix).
  unfold same_shape, shape. rewrite Hpix, list_fmap_insert, length_insert.
  apply list_insert_id. rewrite list_lookup_fmap, Hrow. reflexivity.
Qed.

(** ** No cell is ever fully white *)

#[local] Instance keeps_unsaturated_preorder : PreOrder keeps_unsaturated.
Proof.
  split; unfold keeps_unsaturated.
  - intros s. tauto.
  - intros s1 s2 s3. tauto.
Qed.

Lemma keeps_unsaturated_pixels s s' :
  pixelColourArray s' = pixelColourArray s -> keeps_unsaturated s s'.
Proof. unfold keeps_unsaturated, unsaturated. intros ->. tauto. Qed.

Lemma drawParticle_keeps_unsaturated cfg x y currentPos :
  preserves keeps_unsaturated (drawParticle cfg x y currentPos).
Proof.
  intros s.
  destruct (drawParticle_painted cfg x y currentPos s)
    as [i j row c s' Hrow Hc Hsat _ Hpix | s' Hpix _ | e s' Hpix _];
    try (apply keeps_unsaturated_pixels; exact Hpix).
  unfold keeps_unsaturated, unsaturated. rewrite Hpix. intros Hall.
  apply Forall_insert; [exact Hall|].
  apply Forall_insert; [|exact Hsat].
  exact (Forall_lookup_1 _ _ _ _ Hall Hrow).
Qed.

Lemma startup_unsaturated cfg draws : unsaturated (startup cfg draws).
Proof.
  unfold unsaturated, startup. simpl.
  apply Forall_replicate, Forall_replicate. reflexivity.
Qed.

(** ** Channels never go down *)

Lemma colour_le_refl c : colour_le c c.
Proof. destruct c as [[r g] b]. unfold colour_le. lia. Qed.

Lemma colour_le_trans c1 c2 c3 : colour_le c1 c2 -> colour_le c2 c3 -> colour_le c1 c3.
Proof.
  destruct c1 as [[r1 g1] b1], c2 as [[r2 g2] b2], c3 as [[r3 g3] b3].
  unfold colour_le. lia.
Qed.

Lemma buffer_le_refl (l : list (list colour)) : Forall2 (Forall2 colour_le) l l.
Proof.
  apply Forall2_same_length_lookup_2; [reflexivity|].
  intros i row row' Hrow Hrow'. rewrite Hrow in Hrow'. injection Hrow' as <-.
  apply Forall2_same_length_lookup_2; [reflexivity|].
  intros j c c' Hc Hc'. rewrite Hc in Hc'. injection Hc' as <-.
  apply colour_le_refl.
Qed.

Lemma row_le_trans (l1 l2 l3 : list colour) :
  Forall2 colour_le l1 l2 -> Forall2 colour_le l2 l3 -> Forall2 colour_le l1 l3.
Proof.
  intros H12. revert l3.
  induction H12 as [|c1 c2 l1 l2 Hc _ IH]; intros l3 H23;
    inversion H23; subst; constructor; eauto using colour_le_trans.
Qed.

Lemma buffer_le_trans (l1 l2 l3 : list (list colour)) :
  Forall2 (Forall2 colour_le) l1 l2 ->
  Forall2 (Forall2 colour_le) l2 l3 ->
  Forall2 (Forall2 colour_le) l1 l3.
Proof.
  intros H12. revert l3.
  induction H12 as [|r1 r2 l1 l2 Hr _ IH]; intros l3 H23;
    inversion H23; subst; constructor; eauto using row_le_trans.
Qed.

#[local] Instance brightens_preorder : PreOrder brightens.
Proof.
  split; unfold brightens.
  - intros s Hok. split; [exact Hok | apply buffer_le_refl].
  - intros s1 s2 s3 H12 H23 Hok.
    destruct (H12 Hok) as [Hok2 Hle12]. destruct (H23 Hok2) as [Hok3 Hle23].
    split; [exact Hok3 | eapply buffer_le_trans; eassumption].
Qed.

Lemma brightens_pixels s s' :
  pixelColourArray s' = pixelColourArray s -> brightens s s'.
Proof.
  unfold brightens, channels_ok. intros ->. intros Hok.
  split; [exact Hok | apply buffer_le_refl].
Qed.

Lemma addColour_le cfg c :
  increment_in_range cfg -> colour_ok c -> colour_le c (addColour cfg c).
Proof.
  unfold increment_in_range, colour_ok, colour_le, addColour, clip.
  destruct c as [[r g] b], (pixelColourRGB cfg) as [[cr cg] cb]. lia.
Qed.

Lemma drawParticle_keeps_channels cfg x y currentPos :
  preserves keeps_channels (drawParticle cfg x y currentPos).
Proof.
  apply drawParticle_preserves; first typeclasses eauto;
    auto using deleteParticle_keeps_channels, setPixel_keeps_channels,
      logPaint_keeps_channels.
Qed.

Lemma drawParticle_brightens cfg x y currentPos :
  increment_in_range cfg ->
  preserves brightens (drawParticle cfg x y currentPos).
Proof.
  intros Hinc s.
  pose proof (drawParticle_keeps_channels cfg x y currentPos s) as Hkeep.
  destruct (drawParticle_painted cfg x y currentPos s)
    as [i j row c s' Hrow Hc _ _ Hpix | s' Hpix _ | e s' Hpix _];
    try (apply brightens_pixels; exact Hpix).
  intros Hok. split; [exact (Hkeep Hok)|].
  rewrite Hpix.
  rewrite <- (list_insert_id (pixelColourArray s) i row Hrow) at 1.
  apply Forall2_insert; [apply buffer_le_refl|].
  rewrite <- (list_insert_id row j c Hc) at 1.
  apply Forall2_insert.
  - apply Forall2_same_length_lookup_2; [reflexivity|].
    intros k c1 c2 H1 H2. rewrite H1 in H2. injection H2 as <-. apply colour_le_refl.
  - apply addColour_le; [exact Hinc|].
    exact (Forall_lookup_1 _ _ _ _ (Forall_lookup_1 _ _ _ _ Hok Hrow) Hc).
Qed.

(** ** In wrap mode a step removes at most one particle *)

Lemma boundPositionToWindow_wrap_state cfg x y particleID (s : state float) :
  mirrorEdgesOnContact cfg = true ->
  snd (boundPositionToWindow cfg x y particleID s) = s.
Proof.
  intros Hmirror. unfold boundPositionToWindow, boundAxis. rewrite Hmirror.
  simpl. expose_monad.
  destruct (negb _); destruct (negb _); reflexivity.
Qed.

Lemma drawParticle_removes_at_most_one cfg x y currentPos s :
  (count s <= S (count (snd (drawParticle cfg x y currentPos s))))%nat.
Proof.
  destruct (drawParticle_painted cfg x y currentPos s)
    as [i j row c s' _ _ _ Hparts _ | s' _ Hcount | e s' _ Hcount].
  - unfold count. rewrite Hparts. lia.
  - lia.
  - exact Hcount.
Qed.

Lemma drawLine_loop_removes_at_most_one cfg lerpPositions particleID s :
  mirrorEdgesOnContact cfg = true ->
  (count s <= S (count (snd (drawLine_loop cfg lerpPositions particleID s))))%nat.
Proof.
  intros Hmirror. revert s.
  induction lerpPositions as [|pos rest IH]; intros s; simpl; [lia|].
  expose_monad.
  pose proof (boundPositionToWindow_wrap_state cfg (fst pos) (snd pos) particleID s Hmirror)
    as Hbound.
  destruct (boundPositionToWindow cfg (fst pos) (snd pos) particleID s)
    as [[[x3 y3]|e] s1]; simpl in Hbound; subst s1; [|simpl; lia].
  destruct (PrimFloat.eqb (x3 + y3) 0); [simpl; lia|].
  pose proof (drawParticle_painted cfg x3 y3 particleID s) as Hpaint.
  destruct (drawParticle cfg x3 y3 particleID s) as [r s']. simpl in Hpaint.
  destruct Hpaint as [i j row c s' _ _ _ Hparts _ | s' _ Hcount | e s' _ Hcount];
    simpl.
  - specialize (IH s'). unfold count in *. rewrite Hparts in IH. exact IH.
  - lia.
  - exact Hcount.
Qed.

Lemma drawLine_removes_at_most_one cfg x1 y1 x2 y2 particleID s :
  mirrorEdgesOnContact cfg = true ->
  (count s <= S (count (snd (drawLine cfg x1 y1 x2 y2 particleID s))))%nat.
Proof.
  intros Hmirror. unfold drawLine, py_truediv. expose_monad.
  destruct (PrimFloat.eqb (friction cfg) 0); [simpl; lia|].
  destruct (_ && _); [|simpl; lia].
  destruct (PyFloat.ceil _) as [lerpCount|e]; [|simpl; lia].
  pose proof (drawLine_loop_removes_at_most_one cfg
                (interpolate x1 y1 x2 y2 lerpCount) particleID s Hmirror) as Hloop.
  destruct (drawLine_loop _ _ _ s) as [[[]|e] s1]; exact Hloop.
Qed.

Lemma setParticle_count index p s : count (snd (setParticle index p s)) = count s.
Proof.
  unfold setParticle, count. expose_monad.
  destruct (np_index _ index) as [i|e]; simpl; [|reflexivity].
  apply length_insert.
Qed.

Lemma processParticle_removes_at_most_one lib cfg currentParticle s :
  mirrorEdgesOnContact cfg = true ->
  (count s <= S (count (snd (processParticle lib cfg currentParticle s))))%nat.
Proof.
  intros Hmirror. unfold processParticle. expose_monad.
  pose proof (getParticle_state currentParticle s) as H1.
  destruct (getParticle currentParticle s) as [[[[[x1 y1] vx1] vy1]|e] s0];
    simpl in H1; subst s0; [|simpl; lia].
  pose proof (getNewParticlePosition_state lib cfg x1 y1 vx1 vy1 currentParticle s) as H2.
  destruct (getNewParticlePosition lib cfg x1 y1 vx1 vy1 currentParticle s)
    as [[[[[newX newY] vx2] vy2]|e] s1]; simpl in H2; subst s1; [|simpl; lia].
  pose proof (boundPositionToWindow_wrap_state cfg newX newY currentParticle s Hmirror)
    as H3.
  destruct (boundPositionToWindow cfg newX newY currentParticle s)
    as [[[x2 y2]|e] s2]; simpl in H3; subst s2; [|simpl; lia].
  destruct (PrimFloat.eqb (x2 + y2) 0); [simpl; lia|].
  pose proof (setParticle_count currentParticle (x2, y2, vx2, vy2) s) as H4.
  destruct (setParticle currentParticle (x2, y2, vx2, vy2) s) as [[[]|e] s3];
    simpl in H4; [|simpl; lia].
  destruct (interpolation cfg); simpl.
  - pose proof (drawLine_removes_at_most_one cfg x1 y1 x2 y2 currentParticle s3 Hmirror).
    lia.
  - pose proof (drawParticle_removes_at_most_one cfg x2 y2 currentParticle s3) as H5.
    destruct (drawParticle cfg x2 y2 currentParticle s3) as [[a|e] s4];
      simpl in *; lia.
Qed.

(** ** How many paints a rasterization makes *)

Lemma drawLine_loop_paint_count cfg lerpPositions particleID s :
  (length (paints (snd (drawLine_loop cfg lerpPositions particleID s)))
   <= length (paints s) + length lerpPositions)%nat.
Proof.
  revert s. induction lerpPositions as [|pos rest IH]; intros s; simpl; [lia|].
  expose_monad.
  pose proof (boundPositionToWindow_same_paints cfg (fst pos) (snd pos) particleID s)
    as Hbound.
  apply (f_equal length) in Hbound.
  destruct (boundPositionToWindow cfg (fst pos) (snd pos) particleID s)
    as [[[x3 y3]|e] s1]; simpl in Hbound; [|simpl; lia].
  destruct (PrimFloat.eqb (x3 + y3) 0); [simpl; lia|].
  assert (Hone : (length (paints (snd (drawParticle cfg x3 y3 particleID s1)))
                  <= length (paints s1) + 1)%nat).
  { destruct (drawParticle_paints cfg x3 y3 particleID s1)
      as [-> | (xi & yi & _ & _ & ->)]; [lia|].
    rewrite length_app. simpl. lia. }
  destruct (drawParticle cfg x3 y3 particleID s1) as [[status|e] s2];
    simpl in Hone; [|simpl; lia].
  destruct (status =? 1); [simpl; lia|].
  specialize (IH s2). lia.
Qed.

Lemma length_interpolate x1 y1 x2 y2 steps :
  length (interpolate x1 y1 x2 y2 steps) = Z.to_nat steps.
Proof. unfold interpolate. rewrite length_fmap. apply length_seqZ. Qed.

(** ** Rows after a deleted one move down *)

Lemma np_index_nonneg n index :
  0 <= index < Z.of_nat n -> np_index (Z.of_nat n) index = Ok (Z.to_nat index).
Proof.
  intros Hrange. unfold np_index.
  destruct (Z.ltb_spec index (- Z.of_nat n)); [lia|].
  destruct (Z.leb_spec (Z.of_nat n) index); [lia|]. simpl.
  destruct (Z.ltb_spec index 0); [lia | reflexivity].
Qed.

Lemma getParticle_lookup index s :
  0 <= index < Z.of_nat (count s) ->
  fst (getParticle index s)
  = match particlePositions s !! Z.to_nat index with
    | Some p => Ok p
    | None => Raise IndexError
    end.
Proof.
  intros Hrange. unfold getParticle. expose_monad.
  unfold count in Hrange. rewrite (np_index_nonneg _ _ Hrange). simpl.
  destruct (particlePositions s !! Z.to_nat index); reflexivity.
Qed.

(** ** A frame in which nothing dies *)

Lemma processParticle_shrinks lib cfg currentParticle :
  preserves shrinks (processParticle lib cfg currentParticle).
Proof.
  apply processParticle_preserves; first typeclasses eauto;
    auto using deleteParticle_shrinks, setParticle_shrinks,
      setPixel_shrinks, logPaint_shrinks.
Qed.

Lemma sweep_shrinks lib cfg fuel particlePositionLength currentParticle :
  preserves shrinks (sweep lib cfg fuel particlePositionLength currentParticle).
Proof.
  apply sweep_preserves; first typeclasses eauto;
    auto using deleteParticle_shrinks, setParticle_shrinks,
      setPixel_shrinks, logPaint_shrinks.
Qed.

Lemma sweep_in_order lib cfg fuel particlePositionLength currentParticle s :
  particlePositionLength = currentParticle + Z.of_nat fuel ->
  Z.of_nat (count s) = particlePositionLength ->
  count (snd (sweep lib cfg fuel particlePositionLength currentParticle s)) = count s ->
  sweep lib cfg fuel particlePositionLength currentParticle s
  = processAll lib cfg (seqZ currentParticle (Z.of_nat fuel)) s.
Proof.
  revert currentParticle s.
  induction fuel as [|fuel IH]; intros currentParticle s Hlen Hcount Hkept.
  { reflexivity. }
  rewrite seqZ_cons by lia.
  replace (Z.pred (Z.of_nat (S fuel))) with (Z.of_nat fuel) by lia.
  replace (Z.succ currentParticle) with (currentParticle + 1) by lia.
  simpl in Hkept |- *.
  destruct (Z.ltb_spec currentParticle particlePositionLength); [|lia].
  unfold bind at 1 in Hkept. unfold bind at 1. unfold get in Hkept |- *.
  unfold count in Hcount.
  destruct (Z.leb_spec (Z.of_nat (length (particlePositions s))) currentParticle);
    [lia|].
  unfold bind in Hkept |- *.
  pose proof (processParticle_shrinks lib cfg currentParticle s) as Hstep.
  destruct (processParticle lib cfg currentParticle s) as [[[]|e] s1];
    simpl in Hstep; [|reflexivity].
  pose proof (sweep_shrinks lib cfg fuel particlePositionLength
                (currentParticle + 1) s1) as Hrest.
  unfold shrinks, count in Hstep, Hrest, Hkept.
  apply IH; unfold count; lia.
Qed.

(** ** A particle at the sentinel *)

Lemma frame_one_frozen lib cfg s x1 y1 vx1 vy1 newX newY vx2 vy2 x2 y2 :
  particlePositions s = [(x1, y1, vx1, vy1)] ->
  getNewParticlePosition lib cfg x1 y1 vx1 vy1 0 s = (Ok (newX, newY, vx2, vy2), s) ->
  boundPositionToWindow cfg newX newY 0 s = (Ok (x2, y2), s) ->
  PrimFloat.eqb (x2 + y2) 0 = true ->
  frame lib cfg s = (Ok true, s).
Proof.
  intros Hparts Hnew Hbound Hsum.
  unfold frame. expose_monad. rewrite Hparts. simpl.
  expose_monad. rewrite Hparts. simpl.
  unfold processParticle, getParticle. expose_monad. rewrite Hparts. simpl.
  rewrite Hnew, Hbound, Hsum. reflexivity.
Qed.

(** ** Properties of the simulation core *)

(** What the status of a paint tells its caller: the status is 0 or 1; on 0
    the collection is as it was; on 1 exactly one row is gone and the
    buffer is as it was; and a call that raises has not written the
    buffer. *)
Theorem drawParticle_status_contract cfg x y currentPos s :
  let r := fst (drawParticle cfg x y currentPos s) in
  let s' := snd (drawParticle cfg x y currentPos s) in
  (forall status, r = Ok status -> status = 0 \/ status = 1)
  /\ (r = Ok 0 -> particlePositions s' = particlePositions s)
  /\ (r = Ok 1 ->
      count s = S (count s') /\ pixelColourArray s' = pixelColourArray s)
  /\ (forall e, r = Raise e -> pixelColourArray s' = pixelColourArray s).
Proof.
  cbn zeta.
  pose proof (drawParticle_painted cfg x y currentPos s) as Hpaint.
  destruct (drawParticle cfg x y currentPos s) as [r s']. simpl in Hpaint |- *.
  destruct Hpaint as [i j row c s' _ _ _ Hparts _ | s' Hpix Hcount | e s' Hpix _];
    repeat split; intros; try discriminate; try assumption.
  - left. congruence.
  - right. congruence.
Qed.

(** The buffer keeps its dimensions: no paint, rasterization or frame
    changes the length of any row or the number of rows, so through any
    number of frames the buffer still has [displayHeight] rows of
    [displayWidth] cells. *)
Theorem buffer_dimensions_fixed lib cfg fuel :
  (forall s, shape (snd (mainLoop lib cfg fuel s)) = shape s)
  /\ (forall s x1 y1 x2 y2 particleID,
        shape (snd (drawLine cfg x1 y1 x2 y2 particleID s)) = shape s)
  /\ (forall draws,
        shape (snd (mainLoop lib cfg fuel (startup cfg draws)))
        = replicate (Z.to_nat (displayHeight cfg)) (Z.to_nat (displayWidth cfg))).
Proof.
  assert (Hdelete : forall index,
             preserves same_shape (deleteParticle (num := float) cfg index)).
  { intros index s. apply same_shape_pixels, deleteParticle_pixels. }
  assert (HsetParticle : forall index p, preserves same_shape (setParticle index p)).
  { intros index p s. apply same_shape_pixels, setParticle_pixels. }
  assert (Hloop : forall s, shape (snd (mainLoop lib cfg fuel s)) = shape s).
  { intros s. apply (mainLoop_over_paint same_shape cfg);
      auto using drawParticle_same_shape. }
  repeat split.
  - exact Hloop.
  - intros s x1 y1 x2 y2 particleID.
    apply (drawLine_over_paint same_shape cfg);
      auto using drawParticle_same_shape.
  - intros draws. rewrite Hloop. unfold shape, startup. simpl.
    rewrite fmap_replicate, length_replicate. reflexivity.
Qed.

(** No cell is ever fully white: in every state the program can reach, no
    cell of the buffer holds (255, 255, 255), because the paint that would
    store it deletes the particle instead. *)
Theorem no_cell_is_ever_white lib cfg s :
  reachable lib cfg s -> unsaturated s.
Proof.
  assert (Hdelete : forall index,
             preserves keeps_unsaturated (deleteParticle (num := float) cfg index)).
  { intros index s0. apply keeps_unsaturated_pixels, deleteParticle_pixels. }
  assert (HsetParticle : forall index p,
             preserves keeps_unsaturated (setParticle index p)).
  { intros index p s0. apply keeps_unsaturated_pixels, setParticle_pixels. }
  induction 1 as [draws | s x y currentPos _ IH | s x1 y1 x2 y2 particleID _ IH
                  | s currentParticle _ IH | s _ IH].
  - apply startup_unsaturated.
  - revert IH. apply drawParticle_keeps_unsaturated.
  - revert IH. apply (drawLine_over_paint keeps_unsaturated cfg);
      auto using drawParticle_keeps_unsaturated.
  - revert IH. apply (processParticle_over_paint keeps_unsaturated cfg);
      auto using drawParticle_keeps_unsaturated.
  - revert IH. apply (frame_over_paint keeps_unsaturated cfg);
      auto using drawParticle_keeps_unsaturated.
Qed.

(** a frame of the shipped program, then a paint *)
Lemma no_cell_is_ever_white_witness :
  unsaturated
    (snd (drawParticle defaults 10 5 0
            (snd (frame constantNoise defaults (startup defaults [(10, 5)]))))).
Proof.
  apply (no_cell_is_ever_white constantNoise defaults).
  apply reach_drawParticle, reach_frame, reach_startup.
Defined.

(** Channels never go down: when every channel of the colour increment
    lies in 0..255 and the buffer's channels are in range, every channel of
    every cell after any number of frames is at least what it was. *)
Theorem channels_never_decrease lib cfg fuel s :
  increment_in_range cfg ->
  channels_ok s ->
  Forall2 (Forall2 colour_le) (pixelColourArray s)
    (pixelColourArray (snd (mainLoop lib cfg fuel s))).
Proof.
  intros Hinc Hok.
  assert (Hdelete : forall index,
             preserves brightens (deleteParticle (num := float) cfg index)).
  { intros index s0. apply brightens_pixels, deleteParticle_pixels. }
  assert (HsetParticle : forall index p, preserves brightens (setParticle index p)).
  { intros index p s0. apply brightens_pixels, setParticle_pixels. }
  apply (mainLoop_over_paint brightens cfg Hdelete HsetParticle
           (fun x y currentPos => drawParticle_brightens cfg x y currentPos Hinc)
           lib fuel s).
  exact Hok.
Qed.

Lemma channels_never_decrease_witness :
  Forall2 (Forall2 colour_le)
    (pixelColourArray (startup defaults [(10, 5)]))
    (pixelColourArray
       (snd (mainLoop constantNoise defaults 3 (startup defaults [(10, 5)])))).
Proof.
  apply (channels_never_decrease constantNoise defaults 3 (startup defaults [(10, 5)])).
  - unfold increment_in_range. simpl. lia.
  - apply Forall_replicate, Forall_replicate. unfold colour_ok. lia.
Defined.

(** In wrap mode a particle's step and a rasterization each remove at most
    one particle from the collection. *)
Theorem wrap_step_removes_at_most_one lib cfg s :
  mirrorEdgesOnContact cfg = true ->
  (forall currentParticle,
     (count s <= S (count (snd (processParticle lib cfg currentParticle s))))%nat)
  /\ (forall x1 y1 x2 y2 particleID,
        (count s <= S (count (snd (drawLine cfg x1 y1 x2 y2 particleID s))))%nat).
Proof.
  intros Hmirror. split.
  - intros currentParticle. apply processParticle_removes_at_most_one. exact Hmirror.
  - intros x1 y1 x2 y2 particleID. apply drawLine_removes_at_most_one. exact Hmirror.
Qed.

Lemma wrap_step_removes_at_most_one_witness :
  (count (State [(10, 5, -5, 0); (7, 7, 0, 0)]%float nearlyWhite [])
   <= S (count (snd (processParticle constantNoise defaults 0
                       (State [(10, 5, -5, 0); (7, 7, 0, 0)]%float nearlyWhite [])))))%nat.
Proof.
  exact (proj1 (wrap_step_removes_at_most_one constantNoise defaults
                  (State [(10, 5, -5, 0); (7, 7, 0, 0)]%float nearlyWhite [])
                  eq_refl) 0).
Defined.

(** A rasterization paints at most [ceil(maxDistance)] cells, and none at
    all, leaving the whole state as it was, when the distance is below 1 or
    not below [min(width, height) - edgeMargin] (so a jump across the
    canvas after a wrap is not drawn). *)
Theorem drawLine_paint_bound cfg x1 y1 x2 y2 particleID s :
  let maxDistance := PyFloat.max (abs (x1 - x2)) (abs (y1 - y2)) in
  let edgeMargin := (1 / friction cfg * acceleration cfg)%float in
  let limit := PyFloat.min (PyFloat.of_int (displayWidth cfg) - edgeMargin)
                           (PyFloat.of_int (displayHeight cfg) - edgeMargin) in
  (length (paints (snd (drawLine cfg x1 y1 x2 y2 particleID s)))
   <= length (paints s)
      + match PyFloat.ceil maxDistance with
        | Ok lerpCount => Z.to_nat lerpCount
        | Raise _ => 0
        end)%nat
  /\ (PrimFloat.leb 1 maxDistance && PrimFloat.ltb maxDistance limit = false ->
      snd (drawLine cfg x1 y1 x2 y2 particleID s) = s).
Proof.
  cbn zeta. unfold drawLine, py_truediv. expose_monad.
  destruct (PrimFloat.eqb (friction cfg) 0).
  { split; [simpl; lia | reflexivity]. }
  destruct (PrimFloat.leb 1 _ && PrimFloat.ltb _ _).
  - split; [|discriminate].
    destruct (PyFloat.ceil _) as [lerpCount|e]; [|simpl; lia].
    pose proof (drawLine_loop_paint_count cfg (interpolate x1 y1 x2 y2 lerpCount)
                  particleID s) as Hloop.
    rewrite length_interpolate in Hloop.
    destruct (drawLine_loop _ _ _ s) as [[[]|e] s1]; exact Hloop.
  - split; [simpl; lia | reflexivity].
Qed.

Lemma np_index_valid n index :
  - Z.of_nat n <= index < Z.of_nat n ->
  np_index (Z.of_nat n) index
  = Ok (Z.to_nat (if index <? 0 then index + Z.of_nat n else index)).
Proof.
  intros Hrange. unfold np_index.
  destruct (Z.ltb_spec index (- Z.of_nat n)); [lia|].
  destruct (Z.leb_spec (Z.of_nat n) index); [lia|]. reflexivity.
Qed.

(** Deleting at any valid index, from [-count] to [count - 1] with the
    negative ones counting from the end (so the last and the only row
    included), returns normally when [points] is not 0, removes exactly
    one row and leaves the buffer alone; the rows before the deleted
    position stay where they were and every later row moves down by one,
    so the row read at an index from that position on is the one that was
    read at the next index. *)
Theorem deleteParticle_shifts_later_rows cfg (s : state float) index :
  - Z.of_nat (count s) <= index < Z.of_nat (count s) ->
  points cfg <> 0 ->
  let k := Z.to_nat (if index <? 0 then index + Z.of_nat (count s) else index) in
  let s' := snd (deleteParticle cfg index s) in
  fst (deleteParticle cfg index s) = Ok tt
  /\ count s = S (count s')
  /\ pixelColourArray s' = pixelColourArray s
  /\ (forall j, (j < k)%nat ->
        particlePositions s' !! j = particlePositions s !! j)
  /\ (forall j, (k <= j)%nat ->
        particlePositions s' !! j = particlePositions s !! S j)
  /\ (forall j, Z.of_nat k <= j -> j + 1 < Z.of_nat (count s) ->
        fst (getParticle j s') = fst (getParticle (j + 1) s)).
Proof.
  intros Hrange Hpoints. cbn zeta.
  set (k := Z.to_nat (if index <? 0 then index + Z.of_nat (count s) else index)).
  assert (Hk : (k < length (particlePositions s))%nat).
  { unfold k, count in *. destruct (Z.ltb_spec index 0); lia. }
  destruct (deleteParticle_cases cfg index s) as [Hraise | (n & Hn & Hs & Hr)].
  { unfold deleteParticle in Hraise.
    cbv beta iota delta [bind ret lift get put raise] in Hraise.
    unfold count in Hrange. rewrite (np_index_valid _ _ Hrange) in Hraise.
    simpl in Hraise. destruct (points cfg =? 0); discriminate. }
  rewrite (np_index_valid _ _ Hrange) in Hn. injection Hn as <-. fold k in Hs.
  rewrite Hr, Hs. clear Hr Hs.
  destruct (Z.eqb_spec (points cfg) 0); [contradiction|].
  pose proof (length_delete_lt (particlePositions s) k Hk) as Hlen.
  repeat split.
  - exact Hlen.
  - intros j Hj. simpl. apply list_lookup_delete_lt. exact Hj.
  - intros j Hj. simpl. apply list_lookup_delete_ge. exact Hj.
  - intros j Hj Hnext.
    rewrite !getParticle_lookup by (unfold count in *; simpl; lia). simpl.
    rewrite list_lookup_delete_ge by lia.
    replace (Z.to_nat (j + 1)) with (S (Z.to_nat j)) by lia. reflexivity.
Qed.

(** the last of two rows, addressed from the end *)
Lemma deleteParticle_shifts_later_rows_witness :
  fst (deleteParticle defaults (-1)
         (State [(10, 5, -5, 0); (7, 7, 0, 0)]%float blank []))
  = Ok tt.
Proof.
  refine (proj1 (deleteParticle_shifts_later_rows defaults
                   (State [(10, 5, -5, 0); (7, 7, 0, 0)]%float blank []) (-1)
                   ltac:(vm_compute; split; [discriminate | reflexivity]) ltac:(discriminate))).
Defined.

(** When a frame ends with as many particles as it began with, it has
    processed every index from 0 to the count minus one exactly once and in
    order: it is the sequence of the particle steps, and it raises where
    that sequence raises. *)
Theorem frame_without_deaths_in_order lib cfg s :
  count (snd (frame lib cfg s)) = count s ->
  frame lib cfg s
  = (processAll lib cfg (seqZ 0 (Z.of_nat (count s))) ;;
     ret (negb (Z.of_nat (count s) =? 0))) s.
Proof.
  unfold frame, count. expose_monad. rewrite Nat2Z.id. intros Hkept.
  assert (Heq : sweep lib cfg (length (particlePositions s))
                  (Z.of_nat (length (particlePositions s))) 0 s
                = processAll lib cfg
                    (seqZ 0 (Z.of_nat (length (particlePositions s)))) s).
  { apply sweep_in_order; [lia | reflexivity |].
    unfold count.
    destruct (sweep lib cfg _ _ 0 s) as [[[]|e] s1]; exact Hkept. }
  rewrite Heq. reflexivity.
Qed.

Lemma frame_without_deaths_in_order_witness :
  frame constantNoise defaults (State [(10, 5, -5, 0); (7, 7, 0, 0)]%float blank [])
  = (processAll constantNoise defaults
       (seqZ 0 (Z.of_nat (count (State [(10, 5, -5, 0); (7, 7, 0, 0)]%float blank [])))) ;;
     ret (negb (Z.of_nat (count (State [(10, 5, -5, 0); (7, 7, 0, 0)]%float blank []))
                =? 0)))
      (State [(10, 5, -5, 0); (7, 7, 0, 0)]%float blank []).
Proof.
  exact (frame_without_deaths_in_order constantNoise defaults
           (State [(10, 5, -5, 0); (7, 7, 0, 0)]%float blank []) eq_refl).
Defined.

(** The sentinel [x2 + y2 == 0] also catches a live particle: a lone
    particle whose clamped next position is the origin is not written back,
    drawn or removed, so every frame leaves the state as it was and the
    main loop never exits. *)
Theorem lone_particle_at_origin_stalls lib cfg s x1 y1 vx1 vy1 newX newY vx2 vy2 x2 y2 :
  particlePositions s = [(x1, y1, vx1, vy1)] ->
  getNewParticlePosition lib cfg x1 y1 vx1 vy1 0 s = (Ok (newX, newY, vx2, vy2), s) ->
  boundPositionToWindow cfg newX newY 0 s = (Ok (x2, y2), s) ->
  PrimFloat.eqb (x2 + y2) 0 = true ->
  forall fuel, mainLoop lib cfg fuel s = (Ok false, s).
Proof.
  intros Hparts Hnew Hbound Hsum fuel.
  pose proof (frame_one_frozen lib cfg s _ _ _ _ _ _ _ _ _ _ Hparts Hnew Hbound Hsum)
    as Hframe.
  induction fuel as [|fuel IH]; simpl; [reflexivity|].
  unfold bind. rewrite Hframe. exact IH.
Qed.

(** the shipped settings, a particle one step from the origin *)
Lemma lone_particle_at_origin_stalls_witness :
  mainLoop constantNoise defaults 1000
    (State [(1, 0, - tenth, - 0x1.1a62633145c07p-53)%float] blank [])
  = (Ok false, State [(1, 0, - tenth, - 0x1.1a62633145c07p-53)%float] blank []).
Proof.
  exact (lone_particle_at_origin_stalls constantNoise defaults
           (State [(1, 0, - tenth, - 0x1.1a62633145c07p-53)%float] blank [])
           1 0 (- tenth) (- 0x1.1a62633145c07p-53) 0 0 (-1) 0 0 0
           eq_refl eq_refl eq_refl eq_refl 1000%nat).
Defined.

(** ** The name of a screenshot *)

Lemma string_length_app (s1 s2 : string) :
  String.length (s1 +:+ s2) = (String.length s1 + String.length s2)%nat.
Proof. induction s1 as [|c s1 IH]; simpl; [reflexivity | rewrite IH; reflexivity]. Qed.

Lemma string_app_inj_r (s1 s2 t : string) : s1 +:+ t = s2 +:+ t -> s1 = s2.
Proof.
  revert s2. induction s1 as [|c1 s1 IH]; intros [|c2 s2] Heq; simpl in Heq.
  - reflexivity.
  - apply (f_equal String.length) in Heq.
    rewrite !string_length_app in Heq. simpl in Heq.
    rewrite ?string_length_app in Heq. lia.
  - apply (f_equal String.length) in Heq.
    rewrite !string_length_app in Heq. simpl in Heq.
    rewrite ?string_length_app in Heq. lia.
  - injection Heq as -> Heq. f_equal. apply IH. exact Heq.
Qed.

Lemma path_join_inj a c t1 t2 :
  path_join a (String c t1) = path_join a (String c t2) -> t1 = t2.
Proof.
  unfold path_join. simpl. destruct (Ascii.eqb c "/").
  - intros [= ->]. reflexivity.
  - destruct (String.eqb a "" || endswith_sep a).
    + intros Heq%(inj (String.app a)). injection Heq as ->. reflexivity.
    + intros Heq%(inj (String.app a)). simpl in Heq. injection Heq as ->. reflexivity.
Qed.

#[local] Instance candidate_inj folder name : Inj (=) (=) (candidate folder name).
Proof.
  intros i j. unfold candidate.
  assert (Hdigits : forall t1 t2 : string,
             t1 +:+ "-" +:+ pretty i +:+ ".png" = t2 +:+ "-" +:+ pretty j +:+ ".png" ->
             t1 = t2 -> i = j).
  { intros t1 t2 Heq <-. apply (inj (String.app t1)) in Heq.
    injection Heq as Heq.
    change (pretty i +:+ ".png" = pretty j +:+ ".png") in Heq.
    apply string_app_inj_r in Heq. apply (inj pretty). exact Heq. }
  destruct name as [|c name].
  - change ("" +:+ "-" +:+ pretty i +:+ ".png")
      with (String "-" (pretty i +:+ ".png")).
    change ("" +:+ "-" +:+ pretty j +:+ ".png")
      with (String "-" (pretty j +:+ ".png")).
    intros Heq%path_join_inj. apply string_app_inj_r in Heq.
    apply (inj pretty). exact Heq.
  - change (String c name +:+ "-" +:+ pretty i +:+ ".png")
      with (String c (name +:+ "-" +:+ pretty i +:+ ".png")).
    change (String c name +:+ "-" +:+ pretty j +:+ ".png")
      with (String c (name +:+ "-" +:+ pretty j +:+ ".png")).
    intros Heq%path_join_inj. exact (Hdigits name name Heq eq_refl).
Qed.

Lemma firstFree_some files folder name fuel i r :
  firstFree files folder name fuel i = Some r ->
  (i <= r < i + fuel)%nat
  /\ (candidate folder name r ∉ files)
  /\ forall j, (i <= j < r)%nat -> candidate folder name j ∈ files.
Proof.
  revert i. induction fuel as [|fuel IH]; intros i; simpl; [discriminate|].
  destruct (bool_decide_reflect (candidate folder name i ∈ files)) as [Hin|Hout].
  - intros Hrest. destruct (IH _ Hrest) as (Hr & Hfree & Htaken).
    repeat split; [lia | lia | exact Hfree |].
    intros j Hj. destruct (decide (j = i)) as [-> | Hne]; [exact Hin|].
    apply Htaken. lia.
  - intros [= <-]. repeat split; [lia | lia | exact Hout |].
    intros j Hj. lia.
Qed.

Lemma firstFree_none files folder name fuel i :
  firstFree files folder name fuel i = None ->
  forall j, (i <= j < i + fuel)%nat -> candidate folder name j ∈ files.
Proof.
  revert i. induction fuel as [|fuel IH]; intros i; simpl; [intros _ j Hj; lia|].
  destruct (bool_decide_reflect (candidate folder name i ∈ files)) as [Hin|Hout];
    [|discriminate].
  intros Hrest j Hj. destruct (decide (j = i)) as [-> | Hne]; [exact Hin|].
  apply (IH _ Hrest). lia.
Qed.

(** only as many indices can be taken as there are files *)
Lemma taken_bound (files : gset string) folder name n :
  (forall j, (j < n)%nat -> candidate folder name j ∈ files) ->
  (n <= size files)%nat.
Proof.
  intros Htaken.
  assert (Hsub : list_to_set (C := gset string) (candidate folder name <$> seq 0 n) ⊆ files).
  { intros p Hp. apply elem_of_list_to_set, list_elem_of_fmap in Hp.
    destruct Hp as (j & -> & Hj). apply Htaken.
    apply elem_of_seq in Hj. lia. }
  apply subseteq_size in Hsub.
  rewrite size_list_to_set in Hsub by (apply NoDup_fmap_2; [apply _ | apply NoDup_seq]).
  rewrite length_fmap, length_seq in Hsub. exact Hsub.
Qed.

(** The search for a screenshot's index ends, whatever finite set of paths
    exists: within one test more than there are paths it finds the least
    index whose file does not exist, so the file saved never replaces an
    existing one and every smaller index is taken. *)
Theorem screenshot_index_least_free (files : gset string) folder name extra :
  exists i,
    firstFree files folder name (S (size files) + extra) 0 = Some i
    /\ (i <= size files)%nat
    /\ (candidate folder name i ∉ files)
    /\ forall j, (j < i)%nat -> candidate folder name j ∈ files.
Proof.
  destruct (firstFree files folder name (S (size files) + extra) 0) as [i|] eqn:Hsearch.
  - destruct (firstFree_some _ _ _ _ _ _ Hsearch) as (_ & Hfree & Htaken).
    exists i. repeat split; [| exact Hfree | intros j Hj; apply Htaken; lia].
    apply (taken_bound files folder name). intros j Hj. apply Htaken. lia.
  - pose proof (firstFree_none _ _ _ _ _ Hsearch) as Htaken.
    assert (Hbound : (S (size files) + extra <= size files)%nat).
    { apply (taken_bound files folder name). intros j Hj. apply Htaken. lia. }
    lia.
Qed.

(** Two screenshots in a row: the second search, run on the paths that
    exist after the first file was saved, picks a larger index and another
    file. *)
Theorem successive_screenshots_differ cfg (files : gset string) folder fuel
    file1 files1 file2 files2 :
  saveScreenshot cfg files folder fuel = Some (file1, files1) ->
  saveScreenshot cfg files1 folder fuel = Some (file2, files2) ->
  (file1 ∉ files)
  /\ file1 <> file2
  /\ exists i1 i2,
       (i1 < i2)%nat
       /\ file1 = candidate folder (str_join "-" (screenshotParts cfg)) i1
       /\ file2 = candidate folder (str_join "-" (screenshotParts cfg)) i2
       /\ files2 = {[file2]} ∪ ({[file1]} ∪ files).
Proof.
  unfold saveScreenshot. cbn zeta.
  set (name := str_join "-" (screenshotParts cfg)).
  destruct (firstFree files folder name fuel 0) as [i1|] eqn:H1; [|discriminate].
  simpl. intros Hfirst. apply (inj Some) in Hfirst.
  apply pair_equal_spec in Hfirst as [<- <-].
  destruct (firstFree ({[candidate folder name i1]} ∪ files) folder name fuel 0)
    as [i2|] eqn:H2; [|discriminate].
  simpl. intros Hsecond. apply (inj Some) in Hsecond.
  apply pair_equal_spec in Hsecond as [<- <-].
  destruct (firstFree_some _ _ _ _ _ _ H1) as (_ & Hfree1 & Htaken1).
  destruct (firstFree_some _ _ _ _ _ _ H2) as (_ & Hfree2 & Htaken2).
  assert (Hne : i1 <> i2).
  { intros ->. apply Hfree2. set_solver. }
  assert (Hlt : (i1 < i2)%nat).
  { destruct (decide (i2 < i1)%nat) as [Hless|]; [|lia].
    exfalso. apply Hfree2. apply elem_of_union_r, Htaken1. lia. }
  repeat split.
  - exact Hfree1.
  - intros Heq. apply Hne. exact (inj (candidate folder name) _ _ Heq).
  - exists i1, i2. repeat split. exact Hlt.
Qed.

Lemma successive_screenshots_differ_witness :
  "results/blue-interpolation-mirror-0.png"%string
  <> "results/blue-interpolation-mirror-1.png"%string.
Proof.
  apply (successive_screenshots_differ defaults {["results"%string]} "results" 5
           "results/blue-interpolation-mirror-0.png"
           ({["results/blue-interpolation-mirror-0.png"%string]} ∪ {["results"%string]})
           "results/blue-interpolation-mirror-1.png"
           ({["results/blue-interpolation-mirror-1.png"%string]}
            ∪ ({["results/blue-interpolation-mirror-0.png"%string]} ∪ {["results"%string]})));
    vm_compute; reflexivity.
Defined.

(** The presets have distinct values, so a preset colour is named by its
    own key: the name of the screenshot starts with the key, followed by
    "interpolation" and "mirror" for the flags that are set. *)
Theorem screenshot_names_the_preset cfg key :
  (key, pixelColourRGB cfg) ∈ colours ->
  screenshotParts cfg
  = [key]
    ++ (if interpolation cfg then ["interpolation"%string] else [])
    ++ (if mirrorEdgesOnContact cfg then ["mirror"%string] else []).
Proof.
  intros Hin. unfold screenshotParts. f_equal.
  unfold colours in Hin |- *.
  repeat (apply elem_of_cons in Hin as [Heq | Hin];
          [apply pair_equal_spec in Heq as [-> ->]; reflexivity|]).
  apply elem_of_nil in Hin. contradiction.
Qed.

Lemma screenshot_names_the_preset_witness :
  screenshotParts defaults = ["blue"; "interpolation"; "mirror"]%string.
Proof.
  apply (screenshot_names_the_preset defaults "blue").
  unfold colours. set_solver.
Defined.

(** ** The whole run, and the clamp in delete mode *)

Lemma drawParticle_shrinks cfg x y currentPos :
  preserves shrinks (drawParticle cfg x y currentPos).
Proof.
  apply drawParticle_preserves; first typeclasses eauto;
    auto using deleteParticle_shrinks, setPixel_shrinks, logPaint_shrinks.
Qed.

(** However many frames run, the collection never holds more particles
    than it started with; from start-up it never holds more than
    [points]. *)
Theorem run_never_grows lib cfg fuel :
  (forall s, (count (snd (mainLoop lib cfg fuel s)) <= count s)%nat)
  /\ (forall draws,
        drawn cfg draws ->
        Z.of_nat (count (snd (mainLoop lib cfg fuel (startup cfg draws))))
        <= Z.max 0 (points cfg)).
Proof.
  assert (Hloop : forall s, (count (snd (mainLoop lib cfg fuel s)) <= count s)%nat).
  { intros s. apply (mainLoop_over_paint shrinks cfg);
      auto using deleteParticle_shrinks, setParticle_shrinks, drawParticle_shrinks. }
  split; [exact Hloop|].
  intros draws [Hlen _]. specialize (Hloop (startup cfg draws)).
  unfold count at 2 in Hloop. unfold startup in Hloop at 2. simpl in Hloop.
  rewrite length_fmap in Hloop. lia.
Qed.

(** outside [0, dimension) on one axis, as [boundPositionToWindow] tests it *)
Lemma boundAxis_delete cfg x dimension particleID (s : state float) :
  mirrorEdgesOnContact cfg = false ->
  points cfg <> 0 ->
  0 <= particleID < Z.of_nat (count s) ->
  PrimFloat.leb 0 x && PrimFloat.ltb x (PyFloat.of_int dimension) = false ->
  boundAxis cfg x dimension particleID s
  = (Ok 0%float,
     State (delete (Z.to_nat particleID) (particlePositions s))
           (pixelColourArray s) (paints s)).
Proof.
  intros Hmirror Hpoints Hid Hout.
  unfold boundAxis, deleteParticle. simpl.
  change (PyFloat.of_int 0) with 0%float. rewrite Hout, Hmirror. simpl.
  expose_monad. unfold count in Hid. rewrite (np_index_nonneg _ _ Hid). simpl.
  destruct (Z.eqb_spec (points cfg) 0); [contradiction | reflexivity].
Qed.

Lemma boundAxis_inside cfg x dimension particleID (s : state float) :
  PrimFloat.leb 0 x && PrimFloat.ltb x (PyFloat.of_int dimension) = true ->
  boundAxis cfg x dimension particleID s = (Ok x, s).
Proof.
  intros Hin. unfold boundAxis. simpl.
  change (PyFloat.of_int 0) with 0%float. rewrite Hin. reflexivity.
Qed.

(** In delete mode the clamp deletes the row at the particle's index once
    per axis that is out of range: one row when only [x] is, and two rows,
    the particle's and the one that moved into its index, when both are;
    the coordinate of each such axis comes back as 0. *)
Theorem delete_mode_clamp_deletes_per_axis cfg x y particleID (s : state float) :
  mirrorEdgesOnContact cfg = false ->
  points cfg <> 0 ->
  PrimFloat.leb 0 x && PrimFloat.ltb x (PyFloat.of_int (displayWidth cfg)) = false ->
  (0 <= particleID < Z.of_nat (count s) ->
   PrimFloat.leb 0 y && PrimFloat.ltb y (PyFloat.of_int (displayHeight cfg)) = true ->
   boundPositionToWindow cfg x y particleID s
   = (Ok (0%float, y),
      State (delete (Z.to_nat particleID) (particlePositions s))
            (pixelColourArray s) (paints s)))
  /\ (0 <= particleID < Z.of_nat (count s) - 1 ->
      PrimFloat.leb 0 y && PrimFloat.ltb y (PyFloat.of_int (displayHeight cfg)) = false ->
      boundPositionToWindow cfg x y particleID s
      = (Ok (0%float, 0%float),
         State (delete (Z.to_nat particleID)
                  (delete (Z.to_nat particleID) (particlePositions s)))
               (pixelColourArray s) (paints s))).
Proof.
  intros Hmirror Hpoints Hx. split.
  - intros Hid Hy. unfold boundPositionToWindow, bind.
    rewrite (boundAxis_delete cfg x _ particleID s Hmirror Hpoints Hid Hx).
    rewrite (boundAxis_inside cfg y _ particleID _ Hy). reflexivity.
  - intros Hid Hy. unfold boundPositionToWindow, bind.
    rewrite (boundAxis_delete cfg x _ particleID s Hmirror Hpoints) by (first [lia | exact Hx]).
    rewrite (boundAxis_delete cfg y _ particleID _ Hmirror Hpoints); [reflexivity | | exact Hy].
    unfold count in *. simpl.
    pose proof (length_delete_lt (particlePositions s) (Z.to_nat particleID)). lia.
Qed.

Lemma delete_mode_clamp_deletes_per_axis_witness :
  boundPositionToWindow deleteMode (-1)%float (-1)%float 0
    (State [(2, 2, -3, -3); (7, 7, 0, 0); (9, 9, 0, 0)]%float blank [])
  = (Ok (0%float, 0%float),
     State (delete (Z.to_nat 0)
              (delete (Z.to_nat 0) [(2, 2, -3, -3); (7, 7, 0, 0); (9, 9, 0, 0)]%float))
           blank []).
Proof.
  refine (proj2 (delete_mode_clamp_deletes_per_axis deleteMode (-1)%float (-1)%float 0
                   (State [(2, 2, -3, -3); (7, 7, 0, 0); (9, 9, 0, 0)]%float blank [])
                   eq_refl ltac:(discriminate) eq_refl) ltac:(vm_compute; split; [discriminate | reflexivity]) eq_refl).
Defined.
